(** * reno-finder-starter: the affordability calculator of [app/main.py]
      and [myapp/main.py]

    The two FastAPI applications of the repository share the financial core
    (present values, loan capacity, purchasable price); [myapp/main.py] adds
    the unit normalizer and the reverse solve, [app/main.py] has the explicit
    input checks.

    Numbers.  Python [float] amounts are modelled in module [Py] by exact
    rationals ([Q]), Python [int]s by [Z].  Operations that can raise in
    Python (true division, floor division, [**] with a negative exponent, a
    loop that does not end) return a [result].  The rational model keeps the
    control flow, the comparisons and the algebra of every formula; it has
    no rounding, so it cannot show a sum 1 + i that rounds to 1.0 or a power
    that overflows.  What is stated over it is therefore either about which
    branch runs and what is compared, or about the values of calls that have
    returned.  Module [Flt] re-reads the present-value formulas over IEEE
    binary64 numbers (Rocq's primitive floats); what depends on rounding is
    stated there. *)

From Stdlib Require Import Floats.
From Stdlib Require Import ZArith QArith Qround Qpower Qfield Qabs.
From Stdlib Require Import Bool List String Ascii Lia Lqa.
Import ListNotations.

(** ** Python run-time model *)

Module Py.

Inductive exn : Type :=
| ZeroDivisionError
| OverflowError
| ValueError (msg : string)
| NonTermination.

Inductive result (A : Type) : Type :=
| Ok (a : A)
| Raise (e : exn).

Arguments Ok {A} a.
Arguments Raise {A} e.

Definition bind {A B : Type} (c : result A) (k : A -> result B) : result B :=
  match c with
  | Ok a => k a
  | Raise e => Raise e
  end.

Definition returns {A : Type} (c : result A) : Prop := exists a, c = Ok a.

Definition raises {A : Type} (c : result A) : Prop := exists e, c = Raise e.

Module Notations.
Notation "x <- c ;; k" := (bind c (fun x => k))
  (at level 61, c at next level, right associativity).
Notation "' p <- c ;; k" := (bind c (fun x => let 'p := x in k))
  (at level 61, p pattern, c at next level, right associativity).
End Notations.

Local Open Scope Q_scope.

Definition Qlt_bool (a b : Q) : bool := negb (Qle_bool b a).

(** [a / b] on floats: raises on a zero divisor. *)
Definition truediv (a b : Q) : result Q :=
  if Qeq_bool b 0 then Raise ZeroDivisionError else Ok (a / b).

(** [a // b] on ints: floor division, raises on a zero divisor. *)
Definition floordiv (a b : Z) : result Z :=
  if (b =? 0)%Z then Raise ZeroDivisionError else Ok (a / b)%Z.

(** [x ** e] with a float base and an int exponent: zero to a negative
    power raises, [x ** 0] is 1. *)
Definition pow (x : Q) (e : Z) : result Q :=
  if Qeq_bool x 0 && (e <? 0)%Z then Raise ZeroDivisionError else Ok (x ^ e).

(** [max(a, b)]: the first argument is kept unless the second is strictly
    greater. *)
Definition max (a b : Q) : Q := if Qlt_bool a b then b else a.

(** Nearest integer, ties to the even one. *)
Definition round_half_even (x : Q) : Z :=
  let f := Qfloor x in
  let r := x - inject_Z f in
  if Qlt_bool r (1 # 2) then f
  else if Qlt_bool (1 # 2) r then (f + 1)%Z
  else if Z.even f then f else (f + 1)%Z.

(** [round(x, ndigits)] for [ndigits >= 0]. *)
Definition round (x : Q) (ndigits : nat) : Q :=
  let s := inject_Z (10 ^ Z.of_nat ndigits) in
  inject_Z (round_half_even (x * s)) / s.

(** [x or d] on an optional float: [None] and [0.0] are both falsy. *)
Definition or_else (x : option Q) (d : Q) : Q :=
  match x with
  | None => d
  | Some v => if Qeq_bool v 0 then d else v
  end.

(** [s or d] on an optional string: [None] and the empty string are falsy. *)
Definition str_or (s : option string) (d : string) : string :=
  match s with
  | None => d
  | Some EmptyString => d
  | Some v => v
  end.

End Py.

Import Py Py.Notations.

(** ** Shared vocabulary of both applications *)

(** [Literal["full", "manual"]] *)
Inductive RenoMode : Type := full | manual.

(** What the route answers: the JSON body with status 200, the explicit
    [status_code=400] answers of [app/main.py], and the 422 answer the
    framework builds when a field validator raises [ValueError]. *)
Inductive Response (Body : Type) : Type :=
| Http200 (body : Body)
| Http400 (detail : string)
| Http422 (msg : string).

Arguments Http200 {Body} body.
Arguments Http400 {Body} detail.
Arguments Http422 {Body} msg.

Definition is_error {Body : Type} (r : Response Body) : bool :=
  match r with
  | Http200 _ => false
  | _ => true
  end.

(** [FEE_RATE] and [TAX_RATE] are read from the environment at start-up. *)
Record Config : Type := mkConfig { FEE_RATE : Q; TAX_RATE : Q }.

(** The defaults, ["0.08"] and ["0.10"]. *)
Definition default_config : Config :=
  {| FEE_RATE := 8 # 100; TAX_RATE := 10 # 100 |}.

Definition years_msg : string :=
  "借入期間は1〜50年で入力してください。".

(** ** [src/myapp/main.py] *)

Module MyApp.

Local Open Scope Q_scope.

Definition pv_annuity (monthly i : Q) (n : Z) : result Q :=
  if (n <=? 0)%Z then Ok 0
  else if Qeq_bool i 0 then Ok (monthly * inject_Z n)
  else
    p <- pow (1 + i) (- n) ;;
    truediv (monthly * (1 - p)) i.

(** The [while m <= n] loop of [pv_bonuses]; one unit of [fuel] per
    iteration, and running out of it stands for a loop that does not end. *)
Fixpoint pv_bonuses_loop (fuel : nat) (bonus_per_event i : Q)
    (n every_months m : Z) (pv : Q) : result Q :=
  if (m <=? n)%Z then
    match fuel with
    | O => Raise NonTermination
    | S fuel' =>
        p <- pow (1 + i) m ;;
        t <- truediv bonus_per_event p ;;
        pv_bonuses_loop fuel' bonus_per_event i n every_months
          (m + every_months)%Z (pv + t)
    end
  else Ok pv.

(** The fuel [n] covers every run with [every_months >= 1]; with
    [every_months <= 0] the condition [m <= n] never fails, and a run can
    only end with an exception.  Every call in the source leaves
    [every_months] at 6. *)
Definition pv_bonuses (bonus_per_event i : Q) (n every_months : Z)
    : result Q :=
  if Qle_bool bonus_per_event 0 || (n <=? 0)%Z then Ok 0
  else if Qeq_bool i 0 then
    q <- floordiv n every_months ;;
    Ok (bonus_per_event * inject_Z q)
  else
    pv_bonuses_loop (Z.to_nat n) bonus_per_event i n every_months
      every_months 0.

(** [every_months] is left at its default, 6. *)
Definition loan_capacity_by_payments (monthly_man bonus_man rate_percent : Q)
    (years : Z) : result Q :=
  let n := (years * 12)%Z in
  let i := rate_percent / 100 / 12 in
  a <- pv_annuity monthly_man i n ;;
  b <- pv_bonuses bonus_man i n 6 ;;
  Ok (a + b).

Definition monthly_payment_from_total_loan
    (total_loan_man bonus_man rate_percent : Q) (years : Z) : result Q :=
  let n := (years * 12)%Z in
  let i := rate_percent / 100 / 12 in
  if (n <=? 0)%Z then Ok 0
  else
    pv_bonus <- pv_bonuses bonus_man i n 6 ;;
    let pv_for_monthly := max (total_loan_man - pv_bonus) 0 in
    if Qeq_bool i 0 then truediv pv_for_monthly (inject_Z n)
    else
      p <- pow (1 + i) (- n) ;;
      let denom := 1 - p in
      truediv (pv_for_monthly * i) denom.

Definition full_renovation_cost (area_m2 : Z) : Q :=
  inject_Z (area_m2 * 12 + 350).

Definition solve_purchase_price (total_funds_man fee_rate : Q) : result Q :=
  q <- truediv total_funds_man (1 + max fee_rate 0) ;;
  Ok (max q 0).

(** [x is None] is the first test; the divisor [10000.0] is a literal. *)
Definition normalize_man_input (x : option Q) : Q * bool :=
  match x with
  | None => (0, false)
  | Some x =>
      if Qle_bool 100000 x then (x / 10000, true)
      else (x, false)
  end.

Record CalcReq : Type := mkCalcReq {
  self_man : Q;
  monthly_man : option Q;
  total_loan_input_man : option Q;
  rate_percent : Q;
  area_need_m2 : Z;
  years : Z;
  reno_mode : RenoMode;
  reno_cost_input_man : option Q;
  bonus_man : Q;
  memo_text : option string
}.

(** The [years] field validator. *)
Definition check_years (v : Z) : result Z :=
  if (v <=? 0)%Z || (50 <? v)%Z then Raise (ValueError years_msg)
  else Ok v.

(** The body of the JSON answer. *)
Record CalcRes : Type := mkCalcRes {
  ok : bool;
  monthly_man_out : Q;
  total_loan_man : Q;
  reno_cost_man : Q;
  reno_cost_tax_incl_man : Q;
  fee_man : Q;
  purchasable_price_man : Q;
  res_memo_text : string;
  warning_text : option string
}.

Definition warn_self : string :=
  "自己資金が非常に大きいため『円入力』と判断し、万円に換算しました。".
Definition warn_monthly : string :=
  "月々返済額が大きいため『円入力』と判断し、万円に換算しました。".
Definition warn_total : string :=
  "総借入額が大きいため『円入力』と判断し、万円に換算しました。".
Definition warn_bonus : string :=
  "ボーナス返済額が大きいため『円入力』と判断し、万円に換算しました。".
Definition warn_reno : string :=
  "リノベ費用が大きいため『円入力』と判断し、万円に換算しました。".

(** [warning_msgs.append(msg)] under [if w:] *)
Definition append_if (w : bool) (msgs : list string) (msg : string)
    : list string :=
  if w then msgs ++ [msg] else msgs.

Definition newline : string := String (ascii_of_nat 10) EmptyString.

(** The local variables of [calc] when it reaches its [return]. *)
Record CalcLocals : Type := mkCalcLocals {
  l_self_man : Q;
  l_monthly_in : Q;
  l_total_in : Q;
  l_bonus_man : Q;
  l_reno : Q;
  l_reno_tax : Q;
  l_monthly : Q;
  l_total_loan : Q;
  l_disposable : Q;
  l_purch : Q;
  l_fee : Q;
  l_warning_msgs : list string
}.

(** [calc] up to its [return] statement. *)
Definition calc_locals (cfg : Config) (req : CalcReq) : result CalcLocals :=
  let warning_msgs : list string := [] in
  let '(self_man, w1) := normalize_man_input (Some (self_man req)) in
  let warning_msgs := append_if w1 warning_msgs warn_self in
  let '(monthly_in, w2) :=
    match monthly_man req with
    | Some v => normalize_man_input (Some v)
    | None => (0, false)
    end in
  let '(total_in, w3) :=
    match total_loan_input_man req with
    | Some v => normalize_man_input (Some v)
    | None => (0, false)
    end in
  let '(bonus_man, w4) := normalize_man_input (Some (bonus_man req)) in
  let warning_msgs := append_if w2 warning_msgs warn_monthly in
  let warning_msgs := append_if w3 warning_msgs warn_total in
  let warning_msgs := append_if w4 warning_msgs warn_bonus in
  let '(reno, warning_msgs) :=
    match reno_mode req with
    | full => (full_renovation_cost (area_need_m2 req), warning_msgs)
    | manual =>
        let '(reno, w5) :=
          normalize_man_input (Some (or_else (reno_cost_input_man req) 0)) in
        (reno, append_if w5 warning_msgs warn_reno)
    end in
  let reno_tax := reno * (1 + TAX_RATE cfg) in
  '(monthly, total_loan) <-
    (if Qlt_bool 0 total_in && Qle_bool monthly_in 0 then
       let total_loan := total_in in
       monthly <- monthly_payment_from_total_loan
                    total_loan bonus_man (rate_percent req) (years req) ;;
       Ok (monthly, total_loan)
     else
       let monthly := monthly_in in
       total_loan <- loan_capacity_by_payments
                       monthly bonus_man (rate_percent req) (years req) ;;
       Ok (monthly, total_loan)) ;;
  let disposable := self_man + total_loan - reno_tax in
  purch <- solve_purchase_price disposable (FEE_RATE cfg) ;;
  let fee := purch * FEE_RATE cfg in
  Ok {| l_self_man := self_man; l_monthly_in := monthly_in;
        l_total_in := total_in; l_bonus_man := bonus_man;
        l_reno := reno; l_reno_tax := reno_tax;
        l_monthly := monthly; l_total_loan := total_loan;
        l_disposable := disposable; l_purch := purch; l_fee := fee;
        l_warning_msgs := warning_msgs |}.

(** The [return JSONResponse({...})] of [calc]. *)
Definition calc_return (req : CalcReq) (l : CalcLocals) : CalcRes :=
  let warning_text :=
    match l_warning_msgs l with
    | [] => None
    | msgs => Some (String.concat newline msgs)
    end in
  {| ok := true;
     monthly_man_out := round (l_monthly l) 2;
     total_loan_man := round (l_total_loan l) 1;
     reno_cost_man := round (l_reno l) 1;
     reno_cost_tax_incl_man := round (l_reno_tax l) 1;
     fee_man := round (l_fee l) 1;
     purchasable_price_man := round (l_purch l) 1;
     res_memo_text := str_or (memo_text req) "";
     warning_text := warning_text |}.

Definition calc (cfg : Config) (req : CalcReq) : result (Response CalcRes) :=
  l <- calc_locals cfg req ;;
  Ok (Http200 (calc_return req l)).

(** [POST /calc]: the request model is validated first ([check_years]); a
    [ValueError] there becomes the 422 answer and [calc] is not called. *)
Definition post_calc (cfg : Config) (req : CalcReq)
    : result (Response CalcRes) :=
  match check_years (years req) with
  | Ok _ => calc cfg req
  | Raise (ValueError msg) => Ok (Http422 msg)
  | Raise e => Raise e
  end.

End MyApp.

(** ** [src/app/main.py] *)

Module App.

Local Open Scope Q_scope.

(** [pv_annuity], [pv_bonuses] and [solve_purchase_price] have the same
    bodies as in [myapp/main.py]. *)
Definition pv_annuity (monthly i : Q) (n : Z) : result Q :=
  MyApp.pv_annuity monthly i n.

Definition pv_bonuses (bonus_per_event i : Q) (n every_months : Z)
    : result Q :=
  MyApp.pv_bonuses bonus_per_event i n every_months.

Definition loan_capacity_by_payments (monthly_man bonus_man rate_percent : Q)
    (years : Z) : result Q :=
  let n := (years * 12)%Z in
  let i := rate_percent / 100 / 12 in
  a <- pv_annuity monthly_man i n ;;
  b <- pv_bonuses bonus_man i n 6 ;;
  Ok (a + b).

Definition full_renovation_cost (area_m2 : Z) : Q :=
  inject_Z area_m2 * 12 + 350.

Definition solve_purchase_price (total_funds_man fee_rate : Q) : result Q :=
  MyApp.solve_purchase_price total_funds_man fee_rate.

Record CalcReq : Type := mkCalcReq {
  self_man : Q;
  monthly_man : Q;
  rate_percent : Q;
  area_need_m2 : Z;
  years : Z;
  reno_mode : RenoMode;
  reno_cost_input_man : option Q;
  bonus_man : Q;
  memo_text : option string
}.

Definition _years_ok (v : Z) : result Z :=
  if (v <=? 0)%Z || (50 <? v)%Z then Raise (ValueError years_msg)
  else Ok v.

Record CalcRes : Type := mkCalcRes {
  ok : bool;
  total_loan_man : Q;
  reno_cost_man : Q;
  reno_cost_tax_incl_man : Q;
  fee_man : Q;
  purchasable_price_man : Q;
  res_memo_text : string
}.

Definition check_inputs_msg : string := "入力値を確認してください。".

Definition reno_required_msg : string :=
  "リノベ費用（手入力・万円）を入力してください。".

(** The local variables of [calc] when it reaches its last [return]. *)
Record CalcLocals : Type := mkCalcLocals {
  l_total_loan : Q;
  l_reno_cost : Q;
  l_reno_cost_tax_incl : Q;
  l_disposable : Q;
  l_purch_price : Q;
  l_fee : Q
}.

(** [calc] up to its last [return]; [inl detail] is one of the two early
    [return JSONResponse({"ok": False, "detail": ...}, status_code=400)]. *)
Definition calc_locals (cfg : Config) (req : CalcReq)
    : result (string + CalcLocals) :=
  if Qlt_bool (self_man req) 0 || Qle_bool (monthly_man req) 0
     || Qlt_bool (rate_percent req) 0 || (area_need_m2 req <=? 0)%Z
  then Ok (inl check_inputs_msg)
  else
    total_loan <- loan_capacity_by_payments (monthly_man req) (bonus_man req)
                    (rate_percent req) (years req) ;;
    match
      match reno_mode req with
      | full => Some (full_renovation_cost (area_need_m2 req))
      | manual => reno_cost_input_man req
      end
    with
    | None => Ok (inl reno_required_msg)
    | Some reno_cost =>
        let reno_cost_tax_incl := reno_cost * (1 + TAX_RATE cfg) in
        let disposable := self_man req + total_loan - reno_cost in
        purch_price <- solve_purchase_price disposable (FEE_RATE cfg) ;;
        let fee := purch_price * FEE_RATE cfg in
        Ok (inr {| l_total_loan := total_loan; l_reno_cost := reno_cost;
                   l_reno_cost_tax_incl := reno_cost_tax_incl;
                   l_disposable := disposable;
                   l_purch_price := purch_price; l_fee := fee |})
    end.

(** The [return CalcRes(...)] of [calc]. *)
Definition calc_return (req : CalcReq) (l : CalcLocals) : CalcRes :=
  {| ok := true;
     total_loan_man := round (l_total_loan l) 1;
     reno_cost_man := round (l_reno_cost l) 1;
     reno_cost_tax_incl_man := round (l_reno_cost_tax_incl l) 1;
     fee_man := round (l_fee l) 1;
     purchasable_price_man := round (l_purch_price l) 1;
     res_memo_text := str_or (memo_text req) "" |}.

Definition calc (cfg : Config) (req : CalcReq) : result (Response CalcRes) :=
  r <- calc_locals cfg req ;;
  match r with
  | inl detail => Ok (Http400 detail)
  | inr l => Ok (Http200 (calc_return req l))
  end.

(** [POST /calc]: [_years_ok] runs when the request model is built. *)
Definition post_calc (cfg : Config) (req : CalcReq)
    : result (Response CalcRes) :=
  match _years_ok (years req) with
  | Ok _ => calc cfg req
  | Raise (ValueError msg) => Ok (Http422 msg)
  | Raise e => Raise e
  end.

End App.

(** ** The present-value formulas of [src/myapp/main.py] over binary64 *)

Module Flt.

Local Open Scope float_scope.

(** [float(n)] for an int: correctly rounded, [OverflowError] when the int
    is too large. *)
Definition of_int (n : Z) : result float :=
  let f := SF2Prim (binary_normalize prec emax n 0 false) in
  if is_infinity f then Raise OverflowError else Ok f.

(** Float true division: the interpreter tests the divisor against 0.0. *)
Definition truediv (a b : float) : result float :=
  if b =? 0 then Raise ZeroDivisionError else Ok (a / b).

Definition max (a b : float) : float := if a <? b then b else a.

Section Libm.

(** The C library's [pow], reached only when none of the interpreter's own
    special cases applies; it may set a range error. *)
Variable libm_pow : float -> float -> result float.

(** [x ** e] with a float base and an int exponent, as the interpreter's
    [float_pow] sorts the cases: the exponent is converted to a float;
    anything to the power 0 is 1.0; 0.0 to a negative power raises; 1.0 to
    any power is 1.0; the rest goes to the C library. *)
Definition pow (x : float) (e : Z) : result float :=
  w <- of_int e ;;
  if w =? 0 then Ok 1
  else if x =? 0 then
    if w <? 0 then Raise ZeroDivisionError else libm_pow x w
  else if x =? 1 then Ok 1
  else libm_pow x w.

Definition pv_annuity (monthly i : float) (n : Z) : result float :=
  if (n <=? 0)%Z then Ok 0
  else if i =? 0 then
    nf <- of_int n ;;
    Ok (monthly * nf)
  else
    p <- pow (1 + i) (- n) ;;
    truediv (monthly * (1 - p)) i.

Fixpoint pv_bonuses_loop (fuel : nat) (bonus_per_event i : float)
    (n every_months m : Z) (pv : float) : result float :=
  if (m <=? n)%Z then
    match fuel with
    | O => Raise NonTermination
    | S fuel' =>
        p <- pow (1 + i) m ;;
        t <- truediv bonus_per_event p ;;
        pv_bonuses_loop fuel' bonus_per_event i n every_months
          (m + every_months)%Z (pv + t)
    end
  else Ok pv.

Definition pv_bonuses (bonus_per_event i : float) (n every_months : Z)
    : result float :=
  if (bonus_per_event <=? 0) || (n <=? 0)%Z then Ok 0
  else if i =? 0 then
    q <- floordiv n every_months ;;
    qf <- of_int q ;;
    Ok (bonus_per_event * qf)
  else
    pv_bonuses_loop (Z.to_nat n) bonus_per_event i n every_months
      every_months 0.

Definition loan_capacity_by_payments
    (monthly_man bonus_man rate_percent : float) (years : Z)
    : result float :=
  let n := (years * 12)%Z in
  let i := rate_percent / 100 / 12 in
  a <- pv_annuity monthly_man i n ;;
  b <- pv_bonuses bonus_man i n 6 ;;
  Ok (a + b).

Definition monthly_payment_from_total_loan
    (total_loan_man bonus_man rate_percent : float) (years : Z)
    : result float :=
  let n := (years * 12)%Z in
  let i := rate_percent / 100 / 12 in
  if (n <=? 0)%Z then Ok 0
  else
    pv_bonus <- pv_bonuses bonus_man i n 6 ;;
    let pv_for_monthly := max (total_loan_man - pv_bonus) 0 in
    if i =? 0 then
      nf <- of_int n ;;
      truediv pv_for_monthly nf
    else
      p <- pow (1 + i) (- n) ;;
      let denom := 1 - p in
      truediv (pv_for_monthly * i) denom.

End Libm.

End Flt.

(** ** Sample requests *)

Module Scenario.

Local Open Scope Q_scope.

(** 300 of self funds, 10 a month for 35 years at 0 %, 60 m2, full
    renovation, no bonus. *)
Definition app_full : App.CalcReq :=
  {| App.self_man := 300; App.monthly_man := 10; App.rate_percent := 0;
     App.area_need_m2 := 60; App.years := 35; App.reno_mode := full;
     App.reno_cost_input_man := None; App.bonus_man := 0;
     App.memo_text := None |}.

(** The same request as [myapp/main.py] receives it. *)
Definition myapp_full : MyApp.CalcReq :=
  {| MyApp.self_man := 300; MyApp.monthly_man := Some 10;
     MyApp.total_loan_input_man := None; MyApp.rate_percent := 0;
     MyApp.area_need_m2 := 60; MyApp.years := 35; MyApp.reno_mode := full;
     MyApp.reno_cost_input_man := None; MyApp.bonus_man := 0;
     MyApp.memo_text := None |}.

(** The total loan is typed in (2000) and the monthly payment is absent. *)
Definition myapp_reverse : MyApp.CalcReq :=
  {| MyApp.self_man := 300; MyApp.monthly_man := None;
     MyApp.total_loan_input_man := Some 2000; MyApp.rate_percent := 0;
     MyApp.area_need_m2 := 60; MyApp.years := 35; MyApp.reno_mode := full;
     MyApp.reno_cost_input_man := None; MyApp.bonus_man := 0;
     MyApp.memo_text := None |}.

(** Out-of-contract variants of [myapp_full], one field each. *)
Definition myapp_negative_self : MyApp.CalcReq :=
  {| MyApp.self_man := -100; MyApp.monthly_man := Some 10;
     MyApp.total_loan_input_man := None; MyApp.rate_percent := 0;
     MyApp.area_need_m2 := 60; MyApp.years := 35; MyApp.reno_mode := full;
     MyApp.reno_cost_input_man := None; MyApp.bonus_man := 0;
     MyApp.memo_text := None |}.

Definition myapp_zero_area : MyApp.CalcReq :=
  {| MyApp.self_man := 300; MyApp.monthly_man := Some 10;
     MyApp.total_loan_input_man := None; MyApp.rate_percent := 0;
     MyApp.area_need_m2 := 0; MyApp.years := 35; MyApp.reno_mode := full;
     MyApp.reno_cost_input_man := None; MyApp.bonus_man := 0;
     MyApp.memo_text := None |}.

Definition myapp_negative_rate : MyApp.CalcReq :=
  {| MyApp.self_man := 300; MyApp.monthly_man := Some 10;
     MyApp.total_loan_input_man := None; MyApp.rate_percent := -1;
     MyApp.area_need_m2 := 60; MyApp.years := 1; MyApp.reno_mode := full;
     MyApp.reno_cost_input_man := None; MyApp.bonus_man := 0;
     MyApp.memo_text := None |}.

Definition myapp_negative_monthly : MyApp.CalcReq :=
  {| MyApp.self_man := 300; MyApp.monthly_man := Some (-10);
     MyApp.total_loan_input_man := None; MyApp.rate_percent := 0;
     MyApp.area_need_m2 := 60; MyApp.years := 35; MyApp.reno_mode := full;
     MyApp.reno_cost_input_man := None; MyApp.bonus_man := 0;
     MyApp.memo_text := None |}.

(** Manual renovation with the cost left out. *)
Definition myapp_manual_missing : MyApp.CalcReq :=
  {| MyApp.self_man := 300; MyApp.monthly_man := Some 10;
     MyApp.total_loan_input_man := None; MyApp.rate_percent := 0;
     MyApp.area_need_m2 := 60; MyApp.years := 35; MyApp.reno_mode := manual;
     MyApp.reno_cost_input_man := None; MyApp.bonus_man := 0;
     MyApp.memo_text := None |}.

Definition app_manual_missing : App.CalcReq :=
  {| App.self_man := 300; App.monthly_man := 10; App.rate_percent := 0;
     App.area_need_m2 := 60; App.years := 35; App.reno_mode := manual;
     App.reno_cost_input_man := None; App.bonus_man := 0;
     App.memo_text := None |}.

(** A rate of 1e-15 percent a year: positive, and so small that the
    monthly rate vanishes when it is added to 1.0. *)
Local Set Warnings "-inexact-float".
Definition tiny_rate_percent : float := 1e-15%float.

End Scenario.

(** ** Reference: a stream of discounted payments *)

Module Reference.

Local Open Scope Q_scope.

(** The value today of [count] payments of [amount], one every [period]
    months, at the monthly rate [i]: the sum over k = 1 .. count of
    amount / (1 + i) ^ (period * k).  The formulas of the source are compared
    with this sum. *)
Fixpoint payments_value (amount i : Q) (period : Z) (count : nat) : Q :=
  match count with
  | O => 0
  | S k =>
      payments_value amount i period k
      + amount / (1 + i) ^ (period * Z.of_nat (S k))
  end.

End Reference.

(** * Properties *)

Local Open Scope Q_scope.

(** ** Facts about the run-time model *)

(** Comparisons between rational literals. *)
Ltac qcmp := unfold Qle, Qlt, Qeq; simpl; lia.

Lemma Qlt_bool_iff (a b : Q) : Qlt_bool a b = true <-> a < b.
Proof.
  unfold Qlt_bool. rewrite negb_true_iff, <- not_true_iff_false, Qle_bool_iff.
  split; [apply Qnot_le_lt | apply Qlt_not_le].
Qed.

Lemma Qlt_bool_false_iff (a b : Q) : Qlt_bool a b = false <-> b <= a.
Proof.
  unfold Qlt_bool. rewrite negb_false_iff. apply Qle_bool_iff.
Qed.

Lemma Qle_bool_false_iff (a b : Q) : Qle_bool a b = false <-> b < a.
Proof.
  rewrite <- not_true_iff_false, Qle_bool_iff.
  split; [apply Qnot_le_lt | apply Qlt_not_le].
Qed.

Lemma Qeq_bool_false_iff (a b : Q) : Qeq_bool a b = false <-> ~ a == b.
Proof.
  rewrite <- not_true_iff_false, Qeq_bool_iff. tauto.
Qed.

Lemma max_keep (a b : Q) : b <= a -> max a b = a.
Proof.
  intros H. unfold max. now apply Qlt_bool_false_iff in H; rewrite H.
Qed.

Lemma max_take (a b : Q) : a < b -> max a b = b.
Proof.
  intros H. unfold max. now apply Qlt_bool_iff in H; rewrite H.
Qed.

Lemma max_lower_bound (a b : Q) : b <= max a b.
Proof.
  destruct (Qlt_le_dec a b) as [H | H].
  - rewrite (max_take _ _ H). apply Qle_refl.
  - now rewrite (max_keep _ _ H).
Qed.

Lemma max_compat (a a' b : Q) : a == a' -> max a b == max a' b.
Proof.
  intros E. destruct (Qlt_le_dec a b) as [H | H].
  - rewrite (max_take _ _ H). rewrite E in H.
    rewrite (max_take _ _ H). reflexivity.
  - rewrite (max_keep _ _ H). rewrite E in H.
    now rewrite (max_keep _ _ H).
Qed.

Lemma truediv_ok (a b : Q) : ~ b == 0 -> truediv a b = Ok (a / b).
Proof.
  intros H. unfold truediv. now apply Qeq_bool_false_iff in H; rewrite H.
Qed.

Lemma pow_ok (x : Q) (e : Z) : ~ x == 0 -> pow x e = Ok (x ^ e).
Proof.
  intros H. unfold pow. now apply Qeq_bool_false_iff in H; rewrite H.
Qed.

(** ** The unit normalizer *)

(** C6: [normalize_man_input] maps a null input to (0, not corrected), every
    number at or above 100,000 to (x / 10,000, corrected) and every number
    below 100,000 to (x, not corrected); 99999.99 is kept and 100000 becomes
    10. *)
Theorem normalize_man_input_spec :
  MyApp.normalize_man_input None = (0, false) /\
  (forall x : Q, 100000 <= x ->
     MyApp.normalize_man_input (Some x) = (x / 10000, true)) /\
  (forall x : Q, x < 100000 ->
     MyApp.normalize_man_input (Some x) = (x, false)) /\
  MyApp.normalize_man_input (Some (9999999 # 100)) = (9999999 # 100, false) /\
  (fst (MyApp.normalize_man_input (Some 100000)) == 10 /\
   snd (MyApp.normalize_man_input (Some 100000)) = true).
Proof.
  split; [reflexivity |].
  split.
  { intros x Hx. simpl. apply Qle_bool_iff in Hx. now rewrite Hx. }
  split.
  { intros x Hx. simpl. apply Qle_bool_false_iff in Hx. now rewrite Hx. }
  split; [reflexivity |].
  split; reflexivity.
Qed.

Lemma normalize_man_input_spec_witness :
  MyApp.normalize_man_input (Some 5000000) = (5000000 / 10000, true) /\
  MyApp.normalize_man_input (Some 300) = (300, false).
Proof.
  destruct normalize_man_input_spec as (_ & Hge & Hlt & _).
  split; [apply Hge | apply Hlt]; qcmp.
Defined.

Lemma normalize_small (x : Q) :
  x < 100000 -> MyApp.normalize_man_input (Some x) = (x, false).
Proof.
  intros Hx. simpl. apply Qle_bool_false_iff in Hx. now rewrite Hx.
Qed.

(** C7, as the code has it: for a null input and for every number below
    1,000,000,000 the value [normalize_man_input] returns is below 100,000,
    and normalizing that value again returns it unchanged with
    corrected = false.  From 1,000,000,000 on the returned value is still at
    or above 100,000 and a second pass flags it again. *)
Theorem normalize_man_input_idempotent_below_1e9 :
  (let v := fst (MyApp.normalize_man_input None) in
   MyApp.normalize_man_input (Some v) = (v, false)) /\
  (forall x : Q, x < 1000000000 ->
     let v := fst (MyApp.normalize_man_input (Some x)) in
     v < 100000 /\ MyApp.normalize_man_input (Some v) = (v, false)) /\
  (forall x : Q, 1000000000 <= x ->
     let v := fst (MyApp.normalize_man_input (Some x)) in
     100000 <= v /\ snd (MyApp.normalize_man_input (Some v)) = true).
Proof.
  split; [reflexivity |]. split.
  - intros x Hx v.
    assert (Hv : v < 100000).
    { subst v. simpl. destruct (Qle_bool 100000 x) eqn:E; simpl.
      - apply Qlt_shift_div_r; [reflexivity |].
        eapply Qlt_le_trans; [exact Hx |]. qcmp.
      - now apply Qle_bool_false_iff. }
    split; [exact Hv | now apply normalize_small].
  - intros x Hx v.
    assert (Hx' : 100000 <= x) by (eapply Qle_trans; [| exact Hx]; qcmp).
    assert (Hv : 100000 <= v).
    { subst v. simpl. apply Qle_bool_iff in Hx'. rewrite Hx'. simpl.
      apply Qle_shift_div_l; [reflexivity |].
      eapply Qle_trans; [| exact Hx]. qcmp. }
    split; [exact Hv |].
    simpl. apply Qle_bool_iff in Hv. now rewrite Hv.
Qed.

Lemma normalize_man_input_idempotent_below_1e9_witness :
  let v := fst (MyApp.normalize_man_input (Some 5000000)) in
  v < 100000 /\ MyApp.normalize_man_input (Some v) = (v, false).
Proof.
  destruct normalize_man_input_idempotent_below_1e9 as (_ & H & _).
  apply H. qcmp.
Defined.

(** C7 as stated fails at 1,000,000,000: the first pass returns 100,000
    (corrected), and the second pass rescales that value again to 10 and
    flags it. *)
Lemma normalize_man_input_not_idempotent :
  let v := fst (MyApp.normalize_man_input (Some 1000000000)) in
  v == 100000 /\
  MyApp.normalize_man_input (Some v) <> (v, false) /\
  fst (MyApp.normalize_man_input (Some v)) == 10 /\
  snd (MyApp.normalize_man_input (Some v)) = true.
Proof.
  cbv zeta. repeat split; try reflexivity.
  vm_compute. discriminate.
Qed.

(** ** The purchasable-price solver *)

Lemma fee_divisor_positive (fee_rate : Q) : 0 < 1 + max fee_rate 0.
Proof.
  pose proof (max_lower_bound fee_rate 0) as H.
  apply Qlt_le_trans with (1 + 0); [qcmp |].
  apply Qplus_le_r. exact H.
Qed.

Lemma solve_purchase_price_eq (total_funds_man fee_rate : Q) :
  MyApp.solve_purchase_price total_funds_man fee_rate
  = Ok (max (total_funds_man / (1 + max fee_rate 0)) 0).
Proof.
  unfold MyApp.solve_purchase_price. rewrite truediv_ok; [reflexivity |].
  intros E. pose proof (fee_divisor_positive fee_rate) as H.
  rewrite E in H. now apply Qlt_irrefl in H.
Qed.

(** [calc] of [myapp/main.py] written over the normalized inputs: only the
    list of warnings is left unnamed. *)
Lemma myapp_calc_locals_shape (cfg : Config) (req : MyApp.CalcReq) :
  exists msgs : list string,
    MyApp.calc_locals cfg req =
    let self_man := fst (MyApp.normalize_man_input (Some (MyApp.self_man req))) in
    let monthly_in :=
      match MyApp.monthly_man req with
      | Some v => fst (MyApp.normalize_man_input (Some v))
      | None => 0
      end in
    let total_in :=
      match MyApp.total_loan_input_man req with
      | Some v => fst (MyApp.normalize_man_input (Some v))
      | None => 0
      end in
    let bonus_man := fst (MyApp.normalize_man_input (Some (MyApp.bonus_man req))) in
    let reno :=
      match MyApp.reno_mode req with
      | full => MyApp.full_renovation_cost (MyApp.area_need_m2 req)
      | manual =>
          fst (MyApp.normalize_man_input
                 (Some (or_else (MyApp.reno_cost_input_man req) 0)))
      end in
    let reno_tax := reno * (1 + TAX_RATE cfg) in
    '(monthly, total_loan) <-
      (if Qlt_bool 0 total_in && Qle_bool monthly_in 0 then
         monthly <- MyApp.monthly_payment_from_total_loan total_in bonus_man
                      (MyApp.rate_percent req) (MyApp.years req) ;;
         Ok (monthly, total_in)
       else
         total_loan <- MyApp.loan_capacity_by_payments monthly_in bonus_man
                         (MyApp.rate_percent req) (MyApp.years req) ;;
         Ok (monthly_in, total_loan)) ;;
    let disposable := self_man + total_loan - reno_tax in
    let purch := max (disposable / (1 + max (FEE_RATE cfg) 0)) 0 in
    Ok {| MyApp.l_self_man := self_man; MyApp.l_monthly_in := monthly_in;
          MyApp.l_total_in := total_in; MyApp.l_bonus_man := bonus_man;
          MyApp.l_reno := reno; MyApp.l_reno_tax := reno_tax;
          MyApp.l_monthly := monthly; MyApp.l_total_loan := total_loan;
          MyApp.l_disposable := disposable; MyApp.l_purch := purch;
          MyApp.l_fee := purch * FEE_RATE cfg;
          MyApp.l_warning_msgs := msgs |}.
Proof.
  unfold MyApp.calc_locals.
  destruct (MyApp.normalize_man_input (Some (MyApp.self_man req)))
    as [s w1] eqn:Es.
  assert (Em : exists mi w2,
    match MyApp.monthly_man req with
    | Some v => MyApp.normalize_man_input (Some v)
    | None => (0, false)
    end = (mi, w2)
    /\ mi = match MyApp.monthly_man req with
            | Some v => fst (MyApp.normalize_man_input (Some v))
            | None => 0
            end).
  { destruct (MyApp.monthly_man req); eexists; eexists; split;
      try apply surjective_pairing; reflexivity. }
  destruct Em as (mi & w2 & -> & ->).
  assert (Et : exists ti w3,
    match MyApp.total_loan_input_man req with
    | Some v => MyApp.normalize_man_input (Some v)
    | None => (0, false)
    end = (ti, w3)
    /\ ti = match MyApp.total_loan_input_man req with
            | Some v => fst (MyApp.normalize_man_input (Some v))
            | None => 0
            end).
  { destruct (MyApp.total_loan_input_man req); eexists; eexists; split;
      try apply surjective_pairing; reflexivity. }
  destruct Et as (ti & w3 & -> & ->).
  destruct (MyApp.normalize_man_input (Some (MyApp.bonus_man req)))
    as [b w4] eqn:Eb.
  set (msgs := MyApp.append_if w4 _ _).
  assert (Er : exists reno msgs',
    match MyApp.reno_mode req with
    | full => (MyApp.full_renovation_cost (MyApp.area_need_m2 req), msgs)
    | manual =>
        let '(reno, w5) :=
          MyApp.normalize_man_input
            (Some (or_else (MyApp.reno_cost_input_man req) 0)) in
        (reno, MyApp.append_if w5 msgs MyApp.warn_reno)
    end = (reno, msgs')
    /\ reno = match MyApp.reno_mode req with
              | full => MyApp.full_renovation_cost (MyApp.area_need_m2 req)
              | manual =>
                  fst (MyApp.normalize_man_input
                         (Some (or_else (MyApp.reno_cost_input_man req) 0)))
              end).
  { destruct (MyApp.reno_mode req).
    - eexists; eexists; split; reflexivity.
    - destruct (MyApp.normalize_man_input (Some (or_else _ _))) as [r w5].
      eexists; eexists; split; reflexivity. }
  destruct Er as (reno & msgs' & -> & ->).
  exists msgs'. cbv zeta. simpl fst.
  destruct (Qlt_bool 0 _ && Qle_bool _ 0).
  - destruct (MyApp.monthly_payment_from_total_loan _ _ _ _); simpl;
      [rewrite solve_purchase_price_eq |]; reflexivity.
  - destruct (MyApp.loan_capacity_by_payments _ _ _ _); simpl;
      [rewrite solve_purchase_price_eq |]; reflexivity.
Qed.

(** What [calc] of [myapp/main.py] has computed when it returns. *)
Lemma myapp_calc_locals_inv (cfg : Config) (req : MyApp.CalcReq)
    (l : MyApp.CalcLocals) :
  MyApp.calc_locals cfg req = Ok l ->
  MyApp.l_self_man l = fst (MyApp.normalize_man_input (Some (MyApp.self_man req))) /\
  MyApp.l_reno l
    = match MyApp.reno_mode req with
      | full => MyApp.full_renovation_cost (MyApp.area_need_m2 req)
      | manual =>
          fst (MyApp.normalize_man_input
                 (Some (or_else (MyApp.reno_cost_input_man req) 0)))
      end /\
  MyApp.l_reno_tax l = MyApp.l_reno l * (1 + TAX_RATE cfg) /\
  (MyApp.monthly_payment_from_total_loan (MyApp.l_total_in l)
     (MyApp.l_bonus_man l) (MyApp.rate_percent req) (MyApp.years req)
   = Ok (MyApp.l_monthly l) /\ MyApp.l_total_loan l = MyApp.l_total_in l
   \/
   MyApp.loan_capacity_by_payments (MyApp.l_monthly_in l)
     (MyApp.l_bonus_man l) (MyApp.rate_percent req) (MyApp.years req)
   = Ok (MyApp.l_total_loan l) /\ MyApp.l_monthly l = MyApp.l_monthly_in l) /\
  MyApp.l_disposable l
    = MyApp.l_self_man l + MyApp.l_total_loan l - MyApp.l_reno_tax l /\
  MyApp.solve_purchase_price (MyApp.l_disposable l) (FEE_RATE cfg)
    = Ok (MyApp.l_purch l) /\
  MyApp.l_fee l = MyApp.l_purch l * FEE_RATE cfg.
Proof.
  destruct (myapp_calc_locals_shape cfg req) as [msgs ->]. cbv zeta.
  destruct (Qlt_bool 0 _ && Qle_bool _ 0).
  - destruct (MyApp.monthly_payment_from_total_loan _ _ _ _) as [mo | e]
      eqn:Erev; simpl; [| discriminate].
    intros [= <-]. simpl. rewrite solve_purchase_price_eq.
    repeat split; try reflexivity. left. split; [exact Erev | reflexivity].
  - destruct (MyApp.loan_capacity_by_payments _ _ _ _) as [tl | e]
      eqn:Efwd; simpl; [| discriminate].
    intros [= <-]. simpl. rewrite solve_purchase_price_eq.
    repeat split; try reflexivity. right. split; [exact Efwd | reflexivity].
Qed.

(** What [calc] of [app/main.py] has checked and computed when it reaches
    its last [return]. *)
Lemma app_calc_locals_inv (cfg : Config) (req : App.CalcReq)
    (l : App.CalcLocals) :
  App.calc_locals cfg req = Ok (inr l) ->
  (0 <= App.self_man req /\ 0 < App.monthly_man req /\
   0 <= App.rate_percent req /\ (0 < App.area_need_m2 req)%Z) /\
  App.loan_capacity_by_payments (App.monthly_man req) (App.bonus_man req)
    (App.rate_percent req) (App.years req) = Ok (App.l_total_loan l) /\
  match App.reno_mode req with
  | full => Some (App.full_renovation_cost (App.area_need_m2 req))
  | manual => App.reno_cost_input_man req
  end = Some (App.l_reno_cost l) /\
  App.l_reno_cost_tax_incl l = App.l_reno_cost l * (1 + TAX_RATE cfg) /\
  App.l_disposable l
    = App.self_man req + App.l_total_loan l - App.l_reno_cost l /\
  App.solve_purchase_price (App.l_disposable l) (FEE_RATE cfg)
    = Ok (App.l_purch_price l) /\
  App.l_fee l = App.l_purch_price l * FEE_RATE cfg.
Proof.
  unfold App.calc_locals.
  destruct (Qlt_bool (App.self_man req) 0) eqn:E1; [discriminate |].
  destruct (Qle_bool (App.monthly_man req) 0) eqn:E2; [discriminate |].
  destruct (Qlt_bool (App.rate_percent req) 0) eqn:E3; [discriminate |].
  destruct (App.area_need_m2 req <=? 0)%Z eqn:E4; [discriminate |].
  simpl orb. cbv iota.
  apply Qlt_bool_false_iff in E1, E3. apply Qle_bool_false_iff in E2.
  apply Z.leb_gt in E4.
  destruct (App.loan_capacity_by_payments _ _ _ _) as [tl | e];
    simpl; [| discriminate].
  destruct (match App.reno_mode req with
            | full => _
            | manual => _
            end) as [rc |] eqn:Er; [| discriminate].
  unfold App.solve_purchase_price. rewrite solve_purchase_price_eq. simpl.
  intros [= <-]. simpl. rewrite solve_purchase_price_eq.
  repeat split; auto.
Qed.

(** C8, as the code has it: for every disposable-funds value and every fee
    rate [solve_purchase_price] returns a value that is never negative; for
    every fee rate that is not negative the value is
    disposable / (1 + fee_rate) clamped to a minimum of 0;
    [solve_purchase_price(-500, 0.08)] is 0; and in [calc] of both
    applications the fee is the returned price times the fee rate, each
    reported rounded to one decimal. *)
Theorem solve_purchase_price_spec :
  (forall d fee_rate : Q,
     exists p, MyApp.solve_purchase_price d fee_rate = Ok p /\ 0 <= p) /\
  (forall d fee_rate : Q, 0 <= fee_rate ->
     MyApp.solve_purchase_price d fee_rate = Ok (max (d / (1 + fee_rate)) 0)) /\
  MyApp.solve_purchase_price (-500) (8 # 100) = Ok 0 /\
  (forall d fee_rate : Q,
     App.solve_purchase_price d fee_rate = MyApp.solve_purchase_price d fee_rate) /\
  (forall cfg req l, MyApp.calc_locals cfg req = Ok l ->
     MyApp.solve_purchase_price (MyApp.l_disposable l) (FEE_RATE cfg)
       = Ok (MyApp.l_purch l) /\
     MyApp.l_fee l = MyApp.l_purch l * FEE_RATE cfg /\
     exists body, MyApp.calc cfg req = Ok (Http200 body) /\
       MyApp.purchasable_price_man body = round (MyApp.l_purch l) 1 /\
       MyApp.fee_man body = round (MyApp.l_purch l * FEE_RATE cfg) 1) /\
  (forall cfg req l, App.calc_locals cfg req = Ok (inr l) ->
     App.solve_purchase_price (App.l_disposable l) (FEE_RATE cfg)
       = Ok (App.l_purch_price l) /\
     App.l_fee l = App.l_purch_price l * FEE_RATE cfg /\
     exists body, App.calc cfg req = Ok (Http200 body) /\
       App.purchasable_price_man body = round (App.l_purch_price l) 1 /\
       App.fee_man body = round (App.l_purch_price l * FEE_RATE cfg) 1).
Proof.
  split.
  { intros d fee_rate. rewrite solve_purchase_price_eq.
    eexists; split; [reflexivity | apply max_lower_bound]. }
  split.
  { intros d fee_rate H. rewrite solve_purchase_price_eq.
    now rewrite (max_keep fee_rate 0 H). }
  split; [reflexivity |].
  split; [reflexivity |].
  split.
  - intros cfg req l H.
    pose proof (myapp_calc_locals_inv _ _ _ H) as (_ & _ & _ & _ & _ & Hp & Hf).
    split; [exact Hp |]. split; [exact Hf |].
    unfold MyApp.calc. rewrite H. simpl.
    eexists; split; [reflexivity |]. simpl. rewrite Hf. split; reflexivity.
  - intros cfg req l H.
    pose proof (app_calc_locals_inv _ _ _ H) as (_ & _ & _ & _ & _ & Hp & Hf).
    split; [exact Hp |]. split; [exact Hf |].
    unfold App.calc. rewrite H. simpl.
    eexists; split; [reflexivity |]. simpl. rewrite Hf. split; reflexivity.
Qed.

Lemma solve_purchase_price_spec_witness :
  MyApp.solve_purchase_price 3323 (8 # 100)
  = Ok (max (3323 / (1 + (8 # 100))) 0).
Proof.
  destruct solve_purchase_price_spec as (_ & H & _).
  apply H. qcmp.
Defined.

(** C8 as stated fails for a negative fee rate: with 100 of disposable
    funds and a fee rate of -0.5 the code returns 100, not
    100 / (1 - 0.5) = 200. *)
Lemma solve_purchase_price_negative_fee_counterexample :
  MyApp.solve_purchase_price 100 (- (1 # 2)) = Ok 100 /\
  max (100 / (1 + - (1 # 2))) 0 == 200 /\
  ~ 100 == max (100 / (1 + - (1 # 2))) 0.
Proof.
  split; [reflexivity |]. split; [reflexivity |].
  vm_compute. discriminate.
Qed.

(** C10: for every total-funds value and every negative fee rate the fee
    rate is clamped to 0 before the division, so the result is
    max(total_funds, 0). *)
Theorem solve_purchase_price_negative_fee (total_funds_man fee_rate : Q) :
  fee_rate < 0 ->
  max fee_rate 0 = 0 /\
  exists p, MyApp.solve_purchase_price total_funds_man fee_rate = Ok p /\
            p == max total_funds_man 0.
Proof.
  intros H. split; [now apply max_take |].
  rewrite solve_purchase_price_eq, (max_take _ _ H).
  eexists; split; [reflexivity |].
  apply max_compat. field.
Qed.

Lemma solve_purchase_price_negative_fee_witness :
  max (- (1 # 2)) 0 = 0 /\
  exists p, MyApp.solve_purchase_price 100 (- (1 # 2)) = Ok p /\
            p == max 100 0.
Proof.
  apply (solve_purchase_price_negative_fee 100 (- (1 # 2))). qcmp.
Defined.

(** ** Disposable funds in [calc] *)

(** In [myapp/main.py] the funds handed to the price solver are the
    normalized self funds plus the total loan minus the tax-inclusive
    renovation cost, and the reported price is the solver's answer for
    exactly that amount, rounded to one decimal. *)
Lemma myapp_calc_disposable (cfg : Config) (req : MyApp.CalcReq)
    (l : MyApp.CalcLocals) :
  MyApp.calc_locals cfg req = Ok l ->
  MyApp.l_disposable l
    = MyApp.l_self_man l + MyApp.l_total_loan l
      - MyApp.l_reno l * (1 + TAX_RATE cfg) /\
  MyApp.solve_purchase_price (MyApp.l_disposable l) (FEE_RATE cfg)
    = Ok (MyApp.l_purch l) /\
  exists body, MyApp.calc cfg req = Ok (Http200 body) /\
               MyApp.purchasable_price_man body = round (MyApp.l_purch l) 1.
Proof.
  intros H. pose proof (myapp_calc_locals_inv _ _ _ H)
    as (_ & _ & Ht & _ & Hd & Hp & _).
  rewrite <- Ht. repeat split; try assumption.
  unfold MyApp.calc. rewrite H. simpl. eexists; split; reflexivity.
Qed.

(** In [app/main.py] the renovation cost taken off the funds is the
    tax-exclusive one, whatever the request. *)
Lemma app_calc_disposable (cfg : Config) (req : App.CalcReq)
    (l : App.CalcLocals) :
  App.calc_locals cfg req = Ok (inr l) ->
  App.l_disposable l
    = App.self_man req + App.l_total_loan l - App.l_reno_cost l /\
  App.l_disposable l
    == App.self_man req + App.l_total_loan l - App.l_reno_cost_tax_incl l
       + App.l_reno_cost l * TAX_RATE cfg.
Proof.
  intros H. apply app_calc_locals_inv in H.
  destruct H as (_ & _ & _ & Ht & Hd & _).
  split; [exact Hd |]. rewrite Hd, Ht. ring.
Qed.

(** C1 at [Scenario.app_full] in [app/main.py]: the loan is 4200, the
    renovation cost 1070 and 1177 with tax; the funds handed to the solver
    are 300 + 4200 - 1070 = 3430, not 300 + 4200 - 1177 = 3323, and the
    reported price is 3175.9 where [myapp/main.py] reports 3076.9 for the
    same request. *)
Theorem app_calc_disposable_omits_tax :
  (exists l, App.calc_locals default_config Scenario.app_full = Ok (inr l) /\
     App.l_total_loan l == 4200 /\
     App.l_reno_cost l == 1070 /\
     App.l_reno_cost_tax_incl l == 1177 /\
     App.l_disposable l == 3430 /\
     ~ App.l_disposable l
       == App.self_man Scenario.app_full + App.l_total_loan l
          - App.l_reno_cost_tax_incl l) /\
  (exists body,
     App.post_calc default_config Scenario.app_full = Ok (Http200 body) /\
     App.purchasable_price_man body == 31759 # 10) /\
  (exists body,
     MyApp.post_calc default_config Scenario.myapp_full = Ok (Http200 body) /\
     MyApp.purchasable_price_man body == 30769 # 10).
Proof.
  split; [| split].
  - eexists. split; [vm_compute; reflexivity |].
    repeat split; try reflexivity. vm_compute. discriminate.
  - eexists. split; [vm_compute; reflexivity | reflexivity].
  - eexists. split; [vm_compute; reflexivity | reflexivity].
Qed.

(** ** Solve direction *)

(** C5: [calc] runs the reverse solve exactly when the normalized
    total-loan input is positive and the normalized monthly payment is not
    (an absent field counting as 0); the total loan is then the input and
    the monthly payment is what [monthly_payment_from_total_loan] returns.
    In every other case it runs the forward solve: the monthly payment is
    the normalized input and the total loan is what
    [loan_capacity_by_payments] returns.  An exception of the solve that
    runs is the exception of [calc]. *)
Theorem calc_solve_direction (cfg : Config) (req : MyApp.CalcReq) :
  let total_in :=
    match MyApp.total_loan_input_man req with
    | Some v => fst (MyApp.normalize_man_input (Some v))
    | None => 0
    end in
  let monthly_in :=
    match MyApp.monthly_man req with
    | Some v => fst (MyApp.normalize_man_input (Some v))
    | None => 0
    end in
  let bonus := fst (MyApp.normalize_man_input (Some (MyApp.bonus_man req))) in
  (0 < total_in /\ monthly_in <= 0 ->
   match MyApp.monthly_payment_from_total_loan total_in bonus
           (MyApp.rate_percent req) (MyApp.years req) with
   | Ok monthly =>
       exists l, MyApp.calc_locals cfg req = Ok l /\
                 MyApp.l_monthly l = monthly /\ MyApp.l_total_loan l = total_in
   | Raise e => MyApp.calc_locals cfg req = Raise e
   end) /\
  (~ (0 < total_in /\ monthly_in <= 0) ->
   match MyApp.loan_capacity_by_payments monthly_in bonus
           (MyApp.rate_percent req) (MyApp.years req) with
   | Ok total_loan =>
       exists l, MyApp.calc_locals cfg req = Ok l /\
                 MyApp.l_monthly l = monthly_in /\
                 MyApp.l_total_loan l = total_loan
   | Raise e => MyApp.calc_locals cfg req = Raise e
   end).
Proof.
  intros total_in monthly_in bonus.
  destruct (myapp_calc_locals_shape cfg req) as [msgs ->]. cbv zeta.
  fold total_in monthly_in bonus.
  split.
  - intros [Ht Hm].
    apply Qlt_bool_iff in Ht. apply Qle_bool_iff in Hm. rewrite Ht, Hm.
    simpl andb. cbv iota.
    destruct (MyApp.monthly_payment_from_total_loan _ _ _ _); simpl;
      [eexists; repeat split | reflexivity].
  - intros Hn.
    assert (E : Qlt_bool 0 total_in && Qle_bool monthly_in 0 = false).
    { apply not_true_iff_false. intros E. apply Hn.
      apply andb_true_iff in E. destruct E as [E1 E2].
      split; [now apply Qlt_bool_iff | now apply Qle_bool_iff]. }
    rewrite E.
    destruct (MyApp.loan_capacity_by_payments _ _ _ _); simpl;
      [eexists; repeat split | reflexivity].
Qed.

Lemma calc_solve_direction_witness :
  (exists l, MyApp.calc_locals default_config Scenario.myapp_reverse = Ok l /\
             MyApp.l_monthly l == 2000 / 420 /\
             MyApp.l_total_loan l == 2000) /\
  (exists l, MyApp.calc_locals default_config Scenario.myapp_full = Ok l /\
             MyApp.l_monthly l == 10 /\
             MyApp.l_total_loan l == 4200).
Proof.
  split.
  - destruct (calc_solve_direction default_config Scenario.myapp_reverse)
      as [H _].
    assert (Hc : 0 < fst (MyApp.normalize_man_input (Some 2000)) /\ 0 <= 0)
      by (split; qcmp).
    specialize (H Hc). simpl in H.
    destruct H as (l & E & Hm & Ht).
    exists l. split; [exact E |]. rewrite Hm, Ht. split; reflexivity.
  - destruct (calc_solve_direction default_config Scenario.myapp_full)
      as [_ H].
    assert (Hc : ~ (0 < 0 /\ fst (MyApp.normalize_man_input (Some 10)) <= 0))
      by (intros [Hc _]; revert Hc; qcmp).
    specialize (H Hc). simpl in H.
    destruct H as (l & E & Hm & Ht).
    exists l. split; [exact E |]. rewrite Hm, Ht. split; reflexivity.
Defined.

(** ** The present-value formulas in exact arithmetic *)

Section PresentValue.

Variables (i : Q) (n : Z).
Hypothesis base_nonzero : ~ 1 + i == 0.

Lemma pow_base_ok (e : Z) : pow (1 + i) e = Ok ((1 + i) ^ e).
Proof. now apply pow_ok. Qed.

(** The loop ends within its fuel when each step advances and the fuel
    covers the distance left to [n]. *)
Lemma pv_bonuses_loop_returns (every_months : Z) (bonus : Q) :
  (0 < every_months)%Z ->
  forall (fuel : nat) (m : Z) (pv : Q),
    (n - m < Z.of_nat fuel * every_months)%Z ->
    returns (MyApp.pv_bonuses_loop fuel bonus i n every_months m pv).
Proof.
  intros Hev. induction fuel as [| fuel IH]; intros m pv Hfuel; simpl.
  - destruct (m <=? n)%Z eqn:E; [| now eexists].
    apply Z.leb_le in E. lia.
  - destruct (m <=? n)%Z eqn:E; [| now eexists].
    rewrite pow_base_ok. simpl.
    rewrite truediv_ok by now apply Qpower_not_0.
    simpl. apply IH. lia.
Qed.

Lemma pv_bonuses_returns (bonus : Q) :
  returns (MyApp.pv_bonuses bonus i n 6).
Proof.
  unfold MyApp.pv_bonuses.
  destruct (Qle_bool bonus 0 || (n <=? 0)%Z) eqn:E; [now eexists |].
  apply orb_false_iff in E. destruct E as [_ E]. apply Z.leb_gt in E.
  destruct (Qeq_bool i 0); [now eexists |].
  apply pv_bonuses_loop_returns; lia.
Qed.

Lemma pv_annuity_discounted (monthly : Q) :
  (0 < n)%Z -> ~ i == 0 ->
  MyApp.pv_annuity monthly i n = Ok (monthly * (1 - (1 + i) ^ (- n)) / i).
Proof.
  intros Hn Hi. unfold MyApp.pv_annuity.
  apply Z.leb_gt in Hn. rewrite Hn.
  apply Qeq_bool_false_iff in Hi. rewrite Hi.
  rewrite pow_base_ok. simpl. apply truediv_ok. now apply Qeq_bool_false_iff.
Qed.

Lemma pv_annuity_returns (monthly : Q) :
  returns (MyApp.pv_annuity monthly i n).
Proof.
  unfold MyApp.pv_annuity.
  destruct (n <=? 0)%Z; [now eexists |].
  destruct (Qeq_bool i 0) eqn:E; [now eexists |].
  rewrite pow_base_ok. simpl. rewrite truediv_ok; [now eexists |].
  now apply Qeq_bool_false_iff.
Qed.

End PresentValue.

(** With a positive rate the discount factor over a positive number of
    periods is strictly between 0 and 1. *)
Lemma discount_factor_below_1 (i : Q) (n : Z) :
  0 < i -> (0 < n)%Z -> 0 < (1 + i) ^ (- n) < 1.
Proof.
  intros Hi Hn.
  assert (H1 : 1 < 1 + i).
  { rewrite <- (Qplus_0_r 1) at 1. now apply Qplus_lt_r. }
  assert (Hp : 1 < (1 + i) ^ n) by now apply Qpower_1_lt.
  assert (H0 : 0 < (1 + i) ^ n) by (apply Qlt_trans with 1; [qcmp | exact Hp]).
  rewrite Qpower_opp. split.
  - now apply Qinv_lt_0_compat.
  - setoid_replace 1 with (/ 1) at 2 by reflexivity.
    assert (Hone : 0 < 1) by qcmp.
    exact (proj1 (Qinv_lt_contravar 1 ((1 + i) ^ n) Hone H0) Hp).
Qed.

Lemma monthly_rate_positive (rate_percent : Q) :
  0 < rate_percent -> 0 < rate_percent / 100 / 12.
Proof.
  intros H. apply Qlt_shift_div_l; [qcmp |]. apply Qlt_shift_div_l; [qcmp |].
  setoid_replace (0 * 12 * 100) with 0 by ring. exact H.
Qed.

Lemma positive_rate_base_nonzero (i : Q) : 0 <= i -> ~ 1 + i == 0.
Proof.
  intros Hi E.
  assert (H : 0 < 1 + i).
  { apply Qlt_le_trans with (1 + 0); [qcmp | now apply Qplus_le_r]. }
  rewrite E in H. now apply Qlt_irrefl in H.
Qed.

(** ** The two solve directions *)

(** The algebra of the two solves, in exact arithmetic: for every monthly
    payment m >= 0, bonus b >= 0, rate r > 0 and term y >= 1 the reverse
    formula applied to the forward formula gives m back. *)
Lemma solve_round_trip (m b r : Q) (y : Z) :
  0 <= m -> 0 <= b -> 0 < r -> (1 <= y)%Z ->
  exists loan m',
    MyApp.loan_capacity_by_payments m b r y = Ok loan /\
    MyApp.monthly_payment_from_total_loan loan b r y = Ok m' /\
    m' == m.
Proof.
  intros Hm Hb Hr Hy.
  pose proof (monthly_rate_positive r Hr) as Hi.
  assert (Hn : (0 < y * 12)%Z) by lia.
  assert (Hbase : ~ 1 + r / 100 / 12 == 0)
    by (apply positive_rate_base_nonzero; now apply Qlt_le_weak).
  assert (Hi0 : ~ r / 100 / 12 == 0)
    by (intros E; rewrite E in Hi; now apply Qlt_irrefl in Hi).
  destruct (discount_factor_below_1 _ _ Hi Hn) as [Hp0 Hp1].
  assert (Hden : ~ 1 - (1 + r / 100 / 12) ^ (- (y * 12)) == 0).
  { intros E. apply (Qlt_irrefl 1).
    setoid_replace 1 with ((1 + r / 100 / 12) ^ (- (y * 12))) at 1;
      [exact Hp1 |].
    rewrite <- (Qplus_0_r ((1 + r / 100 / 12) ^ (- (y * 12)))), <- E. ring. }
  destruct (pv_bonuses_returns _ (y * 12) Hbase b) as [pvb Epvb].
  unfold MyApp.loan_capacity_by_payments, MyApp.monthly_payment_from_total_loan.
  cbv zeta.
  rewrite (pv_annuity_discounted _ _ Hbase m Hn Hi0), Epvb. simpl.
  eexists. eexists. split; [reflexivity |].
  apply Z.leb_gt in Hn. rewrite Hn.
  apply Qeq_bool_false_iff in Hi0. rewrite Hi0.
  rewrite (pow_base_ok _ Hbase). simpl.
  rewrite (truediv_ok _ _ Hden). split; [reflexivity |].
  apply Qeq_bool_false_iff in Hi0.
  set (p := (1 + r / 100 / 12) ^ (- (y * 12))) in *.
  set (i := r / 100 / 12) in *.
  assert (Ha : 0 <= m * (1 - p) / i).
  { apply Qle_shift_div_l; [exact Hi |].
    setoid_replace (0 * i) with 0 by ring.
    apply Qmult_le_0_compat; [exact Hm |].
    apply Qlt_le_weak. unfold Qminus. rewrite <- (Qplus_opp_r p).
    apply Qplus_lt_l. exact Hp1. }
  rewrite (max_compat (m * (1 - p) / i + pvb - pvb) (m * (1 - p) / i) 0)
    by ring.
  rewrite (max_keep _ _ Ha). field. split; assumption.
Qed.

Lemma solve_round_trip_witness :
  exists loan m',
    MyApp.loan_capacity_by_payments 10 10 1 35 = Ok loan /\
    MyApp.monthly_payment_from_total_loan loan 10 1 35 = Ok m' /\
    m' == 10.
Proof.
  apply (solve_round_trip 10 10 1 35); qcmp.
Defined.

(** ** Zero divisors *)

(** In exact arithmetic no division of the three formulas meets a zero
    divisor when the rate is not negative: each call returns. *)
Lemma exact_formulas_return (amount bonus rate_percent : Q) (years : Z) :
  0 <= rate_percent ->
  returns (MyApp.pv_annuity amount (rate_percent / 100 / 12) (years * 12)) /\
  returns (MyApp.pv_bonuses bonus (rate_percent / 100 / 12) (years * 12) 6) /\
  returns (MyApp.monthly_payment_from_total_loan amount bonus rate_percent
             years).
Proof.
  intros Hr.
  assert (Hi : 0 <= rate_percent / 100 / 12).
  { apply Qle_shift_div_l; [qcmp |]. apply Qle_shift_div_l; [qcmp |].
    setoid_replace (0 * 12 * 100) with 0 by ring. exact Hr. }
  pose proof (positive_rate_base_nonzero _ Hi) as Hbase.
  split; [now apply pv_annuity_returns |].
  split; [now apply pv_bonuses_returns |].
  unfold MyApp.monthly_payment_from_total_loan. cbv zeta.
  destruct (years * 12 <=? 0)%Z eqn:En; [now eexists |].
  apply Z.leb_gt in En.
  destruct (pv_bonuses_returns _ (years * 12) Hbase bonus) as [pvb ->].
  simpl.
  destruct (Qeq_bool (rate_percent / 100 / 12) 0) eqn:Ei.
  - rewrite truediv_ok; [now eexists |].
    unfold Qeq. simpl. lia.
  - rewrite (pow_base_ok _ Hbase). simpl.
    apply Qeq_bool_false_iff in Ei.
    assert (Hpos : 0 < rate_percent / 100 / 12).
    { apply Qle_lt_or_eq in Hi. destruct Hi as [Hi | Hi]; [exact Hi |].
      exfalso. apply Ei. now symmetry. }
    destruct (discount_factor_below_1 _ _ Hpos En) as [_ Hp1].
    rewrite truediv_ok; [now eexists |].
    intros E. apply (Qlt_irrefl 1).
    setoid_replace 1 with ((1 + rate_percent / 100 / 12) ^ (- (years * 12)))
      at 1; [exact Hp1 |].
    rewrite <- (Qplus_0_r ((1 + rate_percent / 100 / 12) ^ (- (years * 12)))),
      <- E. ring.
Qed.

(** C9 over binary64, at a total loan of 2000, no bonus, 35 years and a
    rate of 1e-15 percent: the rate is positive and the monthly rate [i] is
    not 0.0, so the zero-rate branch is not taken; [1 + i] rounds to 1.0,
    the discount factor is 1.0, [denom] is 0.0 and the last division of
    [monthly_payment_from_total_loan] raises ZeroDivisionError, whatever the
    C library's [pow] does elsewhere. *)
Theorem float_reverse_solve_divides_by_zero
    (libm_pow : float -> float -> result float) :
  let rate_percent := Scenario.tiny_rate_percent in
  let i := (rate_percent / 100 / 12)%float in
  (0 <? rate_percent)%float = true /\
  (i =? 0)%float = false /\
  (1 + i =? 1)%float = true /\
  Flt.pow libm_pow (1 + i)%float (- (35 * 12)) = Ok 1%float /\
  Flt.monthly_payment_from_total_loan libm_pow 2000%float 0%float
    rate_percent 35 = Raise ZeroDivisionError.
Proof.
  cbv zeta. repeat split; vm_compute; reflexivity.
Qed.

(** At the same rate the forward formula does not raise: [pv_annuity]
    divides by [i], which is not 0.0, and values 420 payments of 10 at
    0.0. *)
Lemma float_pv_annuity_tiny_rate
    (libm_pow : float -> float -> result float) :
  Flt.pv_annuity libm_pow 10%float
    (Scenario.tiny_rate_percent / 100 / 12)%float (35 * 12)
  = Ok 0%float.
Proof.
  vm_compute. reflexivity.
Qed.

(** The zero-rate branch itself is sound over binary64: 2000 over 420
    months at 0 percent. *)
Lemma float_reverse_solve_zero_rate
    (libm_pow : float -> float -> result float) :
  Flt.monthly_payment_from_total_loan libm_pow 2000%float 0%float 0%float 35
  = Ok (2000 / 420)%float.
Proof.
  vm_compute. reflexivity.
Qed.

(** C2 over binary64, at a monthly payment of 10, a bonus of 10, 35 years
    and a rate of 1e-15 percent: the rate is positive; the forward solve
    returns 700.0 (the annuity part is 10 * (1 - 1.0) / i = 0.0, the 70
    bonuses are not discounted), and the reverse solve of that loan raises
    ZeroDivisionError instead of returning 10, whatever the C library's
    [pow] does elsewhere. *)
Theorem float_round_trip_raises
    (libm_pow : float -> float -> result float) :
  (0 <? Scenario.tiny_rate_percent)%float = true /\
  Flt.loan_capacity_by_payments libm_pow 10%float 10%float
    Scenario.tiny_rate_percent 35 = Ok 700%float /\
  Flt.monthly_payment_from_total_loan libm_pow 700%float 10%float
    Scenario.tiny_rate_percent 35 = Raise ZeroDivisionError.
Proof.
  repeat split; vm_compute; reflexivity.
Qed.

(** ** Input checks *)

(** Both applications answer 422 to a loan term outside 1..50. *)
Lemma myapp_post_calc_checks_years (cfg : Config) (req : MyApp.CalcReq) :
  (MyApp.years req < 1 \/ 50 < MyApp.years req)%Z ->
  MyApp.post_calc cfg req = Ok (Http422 years_msg).
Proof.
  intros H. unfold MyApp.post_calc, MyApp.check_years.
  assert (E : ((MyApp.years req <=? 0) || (50 <? MyApp.years req))%Z = true).
  { apply orb_true_iff. destruct H as [H | H];
      [left; apply Z.leb_le; lia | right; apply Z.ltb_lt; lia]. }
  now rewrite E.
Qed.

(** [app/main.py] turns away every request the input contract excludes:
    422 for the loan term, 400 for the amounts, the rate and the area. *)
Lemma app_post_calc_checks_inputs (cfg : Config) (req : App.CalcReq) :
  (App.years req < 1)%Z \/ (50 < App.years req)%Z \/
  (App.area_need_m2 req <= 0)%Z \/ App.self_man req < 0 \/
  App.rate_percent req < 0 \/ App.monthly_man req < 0 ->
  exists r, App.post_calc cfg req = Ok r /\ is_error r = true.
Proof.
  intros H. unfold App.post_calc, App._years_ok.
  destruct ((App.years req <=? 0) || (50 <? App.years req))%Z eqn:Ey.
  { eexists; split; reflexivity. }
  apply orb_false_iff in Ey. destruct Ey as [Ey1 Ey2].
  apply Z.leb_gt in Ey1. apply Z.ltb_ge in Ey2.
  unfold App.calc, App.calc_locals.
  assert (E : Qlt_bool (App.self_man req) 0 || Qle_bool (App.monthly_man req) 0
              || Qlt_bool (App.rate_percent req) 0
              || (App.area_need_m2 req <=? 0)%Z = true).
  { destruct H as [H | [H | [H | [H | [H | H]]]]]; [lia | lia | | | |].
    - apply Z.leb_le in H. rewrite H. now rewrite !orb_true_r.
    - apply Qlt_bool_iff in H. now rewrite H.
    - apply Qlt_bool_iff in H. rewrite H. now rewrite !orb_true_r.
    - apply Qlt_le_weak, Qle_bool_iff in H. rewrite H.
      now rewrite !orb_true_r. }
  rewrite E. simpl. eexists; split; reflexivity.
Qed.

(** C3 in [myapp/main.py]: a request with negative self funds, with a zero
    area, with a negative rate or with a negative monthly payment is
    answered with status 200 and a full result, [ok] being true. *)
Theorem myapp_calc_accepts_out_of_contract_input :
  (exists body,
     MyApp.post_calc default_config Scenario.myapp_negative_self
       = Ok (Http200 body) /\ MyApp.ok body = true) /\
  (exists body,
     MyApp.post_calc default_config Scenario.myapp_zero_area
       = Ok (Http200 body) /\ MyApp.ok body = true) /\
  (exists body,
     MyApp.post_calc default_config Scenario.myapp_negative_rate
       = Ok (Http200 body) /\ MyApp.ok body = true) /\
  (exists body,
     MyApp.post_calc default_config Scenario.myapp_negative_monthly
       = Ok (Http200 body) /\ MyApp.ok body = true).
Proof.
  repeat split; eexists; (split; [vm_compute; reflexivity | reflexivity]).
Qed.

(** [app/main.py] answers 400 when the renovation mode is manual and the
    cost is left out. *)
Lemma app_calc_requires_manual_cost (cfg : Config) (req : App.CalcReq) :
  App.reno_mode req = manual -> App.reno_cost_input_man req = None ->
  0 <= App.rate_percent req ->
  exists detail, App.calc cfg req = Ok (Http400 detail).
Proof.
  intros Hmode Hcost Hrate. unfold App.calc, App.calc_locals.
  destruct (_ || _); [now eexists |].
  unfold App.loan_capacity_by_payments, App.pv_annuity, App.pv_bonuses.
  destruct (exact_formulas_return (App.monthly_man req) (App.bonus_man req)
              (App.rate_percent req) (App.years req) Hrate)
    as ([a ->] & [b ->] & _).
  simpl. rewrite Hmode, Hcost. now eexists.
Qed.

(** C4 in [myapp/main.py]: with the renovation mode manual and no cost
    supplied the request is answered with status 200, and the renovation
    cost used and reported is 0. *)
Theorem myapp_calc_defaults_missing_manual_cost :
  MyApp.reno_mode Scenario.myapp_manual_missing = manual /\
  MyApp.reno_cost_input_man Scenario.myapp_manual_missing = None /\
  (exists l,
     MyApp.calc_locals default_config Scenario.myapp_manual_missing = Ok l /\
     MyApp.l_reno l = 0 /\ MyApp.l_disposable l == 4500) /\
  (exists body,
     MyApp.post_calc default_config Scenario.myapp_manual_missing
       = Ok (Http200 body) /\
     MyApp.ok body = true /\ MyApp.reno_cost_man body == 0 /\
     MyApp.purchasable_price_man body == 41667 # 10) /\
  (exists detail,
     App.post_calc default_config Scenario.app_manual_missing
       = Ok (Http400 detail)).
Proof.
  split; [reflexivity |]. split; [reflexivity |].
  split; [| split].
  - eexists. split; [vm_compute; reflexivity |]. split; reflexivity.
  - eexists. split; [vm_compute; reflexivity |]. repeat split; reflexivity.
  - eexists. vm_compute. reflexivity.
Qed.

(** * Further properties of the financial core *)

(** ** Present values as sums of discounted payments *)

Import Reference.

Lemma payments_value_compat (amount i i' : Q) (period : Z) (count : nat) :
  i == i' ->
  payments_value amount i period count == payments_value amount i' period count.
Proof.
  intros E. induction count as [| k IH]; [reflexivity |].
  cbn [payments_value]. rewrite IH, E. reflexivity.
Qed.

Lemma payments_value_zero_rate (amount : Q) (period : Z) (count : nat) :
  payments_value amount 0 period count == amount * inject_Z (Z.of_nat count).
Proof.
  induction count as [| k IH]; [cbn; ring |].
  cbn [payments_value]. rewrite IH.
  setoid_replace (1 + 0) with 1 by ring. rewrite Qpower_1.
  rewrite Nat2Z.inj_succ. unfold Z.succ. rewrite inject_Z_plus. field.
Qed.

Lemma payments_value_linear (amount i : Q) (period : Z) (count : nat) :
  payments_value amount i period count
  == amount * payments_value 1 i period count.
Proof.
  induction count as [| k IH]; [cbn; ring |].
  cbn [payments_value]. rewrite IH. unfold Qdiv. ring.
Qed.

(** With a rate that is not negative every payment is worth at most its
    face value. *)
Lemma payments_value_unit_bounds (i : Q) (period : Z) (count : nat) :
  0 <= i -> (0 <= period)%Z ->
  0 <= payments_value 1 i period count <= inject_Z (Z.of_nat count).
Proof.
  intros Hi Hp.
  assert (H1 : 1 <= 1 + i).
  { rewrite <- (Qplus_0_r 1) at 1. now apply Qplus_le_r. }
  induction count as [| k [IH0 IH1]]; [split; qcmp |].
  cbn [payments_value].
  assert (Hpow : 1 <= (1 + i) ^ (period * Z.of_nat (S k))).
  { apply Qpower_1_le; [exact H1 | nia]. }
  assert (Hpos : 0 < (1 + i) ^ (period * Z.of_nat (S k))).
  { eapply Qlt_le_trans; [| exact Hpow]. qcmp. }
  assert (Hterm : 0 <= 1 / (1 + i) ^ (period * Z.of_nat (S k)) <= 1).
  { split.
    - apply Qle_shift_div_l; [exact Hpos |]. rewrite Qmult_0_l. qcmp.
    - apply Qle_shift_div_r; [exact Hpos |]. now rewrite Qmult_1_l. }
  destruct Hterm as [Ht0 Ht1]. split.
  - rewrite <- (Qplus_0_r 0). now apply Qplus_le_compat.
  - setoid_replace (inject_Z (Z.of_nat (S k)))
      with (inject_Z (Z.of_nat k) + 1)
      by (rewrite Nat2Z.inj_succ; unfold Z.succ; now rewrite inject_Z_plus).
    now apply Qplus_le_compat.
Qed.

(** The closed form of the annuity, one more payment at a time. *)
Lemma annuity_closed_form (monthly i : Q) (count : nat) :
  ~ i == 0 -> ~ 1 + i == 0 ->
  monthly * (1 - (1 + i) ^ (- Z.of_nat count)) / i
  == payments_value monthly i 1 count.
Proof.
  intros Hi Hbase. induction count as [| k IH].
  - cbn. field. exact Hi.
  - cbn [payments_value]. rewrite <- IH.
    rewrite Z.mul_1_l, Nat2Z.inj_succ. unfold Z.succ.
    rewrite !Qpower_opp, Qpower_plus by exact Hbase.
    assert (Hk : ~ (1 + i) ^ Z.of_nat k == 0) by now apply Qpower_not_0.
    change ((1 + i) ^ 1) with (1 + i).
    set (X := (1 + i) ^ Z.of_nat k) in *.
    field. repeat split; assumption.
Qed.

(** Whenever the base [1 + i] is not zero, [pv_annuity] returns the sum of
    [n] monthly payments, each discounted by (1 + i)^k. *)
Lemma pv_annuity_sum (monthly i : Q) (n : Z) :
  ~ 1 + i == 0 ->
  exists v, MyApp.pv_annuity monthly i n = Ok v /\
            v == payments_value monthly i 1 (Z.to_nat n).
Proof.
  intros Hbase. destruct (Z.leb_spec n 0) as [Hn | Hn].
  - unfold MyApp.pv_annuity. apply Z.leb_le in Hn. rewrite Hn.
    exists 0. split; [reflexivity |].
    apply Z.leb_le in Hn.
    replace (Z.to_nat n) with 0%nat by lia. reflexivity.
  - destruct (Qeq_bool i 0) eqn:Ei.
    + unfold MyApp.pv_annuity. apply Z.leb_gt in Hn. rewrite Hn, Ei.
      eexists. split; [reflexivity |].
      apply Qeq_bool_iff in Ei. apply Z.leb_gt in Hn.
      rewrite (payments_value_compat _ _ _ _ _ Ei), payments_value_zero_rate.
      rewrite Z2Nat.id by lia. reflexivity.
    + apply Qeq_bool_false_iff in Ei.
      rewrite (pv_annuity_discounted i n Hbase monthly Hn Ei).
      eexists. split; [reflexivity |].
      rewrite <- (annuity_closed_form monthly i (Z.to_nat n) Ei Hbase).
      rewrite Z2Nat.id by lia. reflexivity.
Qed.

Lemma pv_bonuses_loop_unfold (fuel : nat) (bonus i : Q) (n every m : Z)
    (pv : Q) :
  MyApp.pv_bonuses_loop fuel bonus i n every m pv
  = if (m <=? n)%Z then
      match fuel with
      | O => Raise NonTermination
      | S fuel' =>
          p <- pow (1 + i) m ;;
          t <- truediv bonus p ;;
          MyApp.pv_bonuses_loop fuel' bonus i n every (m + every)%Z (pv + t)
      end
    else Ok pv.
Proof. destruct fuel; reflexivity. Qed.

(** The bonus loop adds one discounted payment per pass: started at the
    (j+1)-th bonus month with [c] bonus months left within [n], it ends
    with the accumulator increased by those [c] payments. *)
Lemma pv_bonuses_loop_sum (bonus i : Q) (n : Z) :
  ~ 1 + i == 0 ->
  forall (c j fuel : nat) (pv : Q),
    (6 * (Z.of_nat j + Z.of_nat c) <= n
     < 6 * (Z.of_nat j + Z.of_nat c + 1))%Z ->
    (c <= fuel)%nat ->
    exists v,
      MyApp.pv_bonuses_loop fuel bonus i n 6 (6 * Z.of_nat (S j)) pv = Ok v /\
      v + payments_value bonus i 6 j == pv + payments_value bonus i 6 (j + c).
Proof.
  intros Hbase. induction c as [| c IH]; intros j fuel pv Hn Hfuel.
  - exists pv. split.
    + assert (E : (6 * Z.of_nat (S j) <=? n)%Z = false)
        by (apply Z.leb_gt; lia).
      now rewrite pv_bonuses_loop_unfold, E.
    + now rewrite Nat.add_0_r.
  - destruct fuel as [| fuel]; [lia |].
    assert (E : (6 * Z.of_nat (S j) <=? n)%Z = true)
      by (apply Z.leb_le; lia).
    rewrite pv_bonuses_loop_unfold, E.
    rewrite (pow_ok _ _ Hbase). unfold bind at 1.
    rewrite truediv_ok by now apply Qpower_not_0.
    unfold bind at 1.
    replace (6 * Z.of_nat (S j) + 6)%Z with (6 * Z.of_nat (S (S j)))%Z by lia.
    destruct (IH (S j) fuel (pv + bonus / (1 + i) ^ (6 * Z.of_nat (S j))))
      as (v & Ev & Hv); [lia | lia |].
    exists v. split; [exact Ev |].
    replace (j + S c)%nat with (S j + c)%nat by lia.
    cbn [payments_value] in Hv.
    set (t := bonus / (1 + i) ^ (6 * Z.of_nat (S j))) in *.
    set (A := payments_value bonus i 6 j) in *.
    set (B := payments_value bonus i 6 (S j + c)) in *.
    lra.
Qed.

(** For a bonus that is not negative and a base [1 + i] that is not zero,
    [pv_bonuses] returns the sum of the floor(n / 6) bonus payments that
    fall within the term, the k-th discounted by (1 + i)^(6k). *)
Lemma pv_bonuses_sum (bonus i : Q) (n : Z) :
  0 <= bonus -> ~ 1 + i == 0 ->
  exists v, MyApp.pv_bonuses bonus i n 6 = Ok v /\
            v == payments_value bonus i 6 (Z.to_nat (n / 6)).
Proof.
  intros Hb Hbase. unfold MyApp.pv_bonuses.
  destruct (Qle_bool bonus 0) eqn:Eb; simpl orb.
  { exists 0. split; [reflexivity |].
    apply Qle_bool_iff in Eb.
    assert (E0 : bonus == 0) by now apply Qle_antisym.
    rewrite payments_value_linear, E0. ring. }
  destruct (Z.leb_spec n 0) as [Hn | Hn].
  { exists 0. split; [reflexivity |].
    assert (Hq : (n / 6 <= 0)%Z) by (apply Z.div_le_upper_bound; lia).
    replace (Z.to_nat (n / 6)) with 0%nat by lia. reflexivity. }
  destruct (Qeq_bool i 0) eqn:Ei.
  - simpl. eexists. split; [reflexivity |].
    apply Qeq_bool_iff in Ei.
    rewrite (payments_value_compat _ _ _ _ _ Ei), payments_value_zero_rate.
    rewrite Z2Nat.id by (apply Z.div_pos; lia). reflexivity.
  - pose proof (Z.div_pos n 6 ltac:(lia) ltac:(lia)) as Hq.
    pose proof (Z.mul_div_le n 6 ltac:(lia)) as Hlo.
    pose proof (Z.mul_succ_div_gt n 6 ltac:(lia)) as Hhi.
    destruct (pv_bonuses_loop_sum bonus i n Hbase
                (Z.to_nat (n / 6)) 0%nat (Z.to_nat n) 0)
      as (v & Ev & Hv).
    + rewrite Z2Nat.id by exact Hq. simpl Z.of_nat. lia.
    + assert (n / 6 <= n)%Z by (apply Z.div_le_upper_bound; lia). lia.
    + exists v. split; [exact Ev |].
      simpl in Hv. rewrite Qplus_0_r, Qplus_0_l in Hv. exact Hv.
Qed.

(** ** Loan capacity and the reverse solve *)

Lemma monthly_rate_nonneg (rate_percent : Q) :
  0 <= rate_percent -> 0 <= rate_percent / 100 / 12.
Proof.
  intros H. apply Qle_shift_div_l; [qcmp |]. apply Qle_shift_div_l; [qcmp |].
  setoid_replace (0 * 12 * 100) with 0 by ring. exact H.
Qed.

(** The annuity factor: the value of [count] payments of 1. *)
Lemma annuity_factor_positive (i : Q) (count : nat) :
  0 <= i -> (0 < count)%nat -> 0 < payments_value 1 i 1 count.
Proof.
  intros Hi Hc. destruct count as [| k]; [lia |].
  cbn [payments_value].
  destruct (payments_value_unit_bounds i 1 k Hi ltac:(lia)) as [H0 _].
  assert (H1 : 1 <= 1 + i).
  { rewrite <- (Qplus_0_r 1) at 1. now apply Qplus_le_r. }
  assert (Hpow : 0 < (1 + i) ^ (1 * Z.of_nat (S k))).
  { apply Qpower_0_lt. eapply Qlt_le_trans; [| exact H1]. qcmp. }
  assert (Ht : 0 < 1 / (1 + i) ^ (1 * Z.of_nat (S k))).
  { apply Qlt_shift_div_l; [exact Hpow |]. rewrite Qmult_0_l. qcmp. }
  set (A := payments_value 1 i 1 k) in *.
  set (t := 1 / (1 + i) ^ (1 * Z.of_nat (S k))) in *.
  lra.
Qed.

(** The forward solve: the annuity part is the monthly payment times the
    annuity factor, the bonus part is whatever [pv_bonuses] returns. *)
Lemma forward_solve_value (m b r : Q) (y : Z) :
  0 <= r ->
  exists a pvb,
    MyApp.pv_bonuses b (r / 100 / 12) (y * 12) 6 = Ok pvb /\
    MyApp.loan_capacity_by_payments m b r y = Ok (a + pvb) /\
    a == m * payments_value 1 (r / 100 / 12) 1 (Z.to_nat (y * 12)).
Proof.
  intros Hr. pose proof (monthly_rate_nonneg r Hr) as Hi.
  pose proof (positive_rate_base_nonzero _ Hi) as Hbase.
  destruct (pv_annuity_sum m _ (y * 12) Hbase) as (a & Ea & Ha).
  destruct (pv_bonuses_returns _ (y * 12) Hbase b) as [pvb Epvb].
  exists a, pvb. split; [exact Epvb |]. split.
  - unfold MyApp.loan_capacity_by_payments. cbv zeta.
    now rewrite Ea, Epvb.
  - now rewrite Ha, payments_value_linear.
Qed.

(** The reverse solve: the payment it returns, times the annuity factor, is
    the part of the loan the bonuses do not cover, or 0 when they cover it
    all. *)
Lemma reverse_solve_value (loan b r : Q) (y : Z) :
  0 <= r -> (1 <= y)%Z ->
  exists pvb v,
    MyApp.pv_bonuses b (r / 100 / 12) (y * 12) 6 = Ok pvb /\
    MyApp.monthly_payment_from_total_loan loan b r y = Ok v /\
    v * payments_value 1 (r / 100 / 12) 1 (Z.to_nat (y * 12))
    == max (loan - pvb) 0.
Proof.
  intros Hr Hy. pose proof (monthly_rate_nonneg r Hr) as Hi.
  pose proof (positive_rate_base_nonzero _ Hi) as Hbase.
  assert (Hn : (0 < y * 12)%Z) by lia.
  destruct (pv_bonuses_returns _ (y * 12) Hbase b) as [pvb Epvb].
  exists pvb. unfold MyApp.monthly_payment_from_total_loan. cbv zeta.
  pose proof Hn as Hn'. apply Z.leb_gt in Hn'. rewrite Hn', Epvb.
  unfold bind at 1.
  set (pfm := max (loan - pvb) 0).
  destruct (Qeq_bool (r / 100 / 12) 0) eqn:Ei.
  - rewrite truediv_ok by (unfold Qeq; simpl; lia).
    eexists. split; [reflexivity |]. split; [reflexivity |].
    apply Qeq_bool_iff in Ei.
    rewrite (payments_value_compat _ _ _ _ _ Ei), payments_value_zero_rate.
    rewrite Z2Nat.id by lia. field. unfold Qeq; simpl; lia.
  - apply Qeq_bool_false_iff in Ei.
    assert (Hpos : 0 < r / 100 / 12).
    { apply Qle_lt_or_eq in Hi. destruct Hi as [Hi | Hi]; [exact Hi |].
      exfalso. apply Ei. now symmetry. }
    destruct (discount_factor_below_1 _ _ Hpos Hn) as [_ Hp1].
    assert (Hden : ~ 1 - (1 + r / 100 / 12) ^ (- (y * 12)) == 0).
    { intros E. apply (Qlt_irrefl 1).
      setoid_replace 1 with ((1 + r / 100 / 12) ^ (- (y * 12))) at 1;
        [exact Hp1 |].
      rewrite <- (Qplus_0_r ((1 + r / 100 / 12) ^ (- (y * 12)))), <- E.
      ring. }
    rewrite (pow_ok _ _ Hbase). unfold bind at 1.
    rewrite (truediv_ok _ _ Hden).
    eexists. split; [reflexivity |]. split; [reflexivity |].
    rewrite <- (annuity_closed_form 1 _ (Z.to_nat (y * 12)) Ei Hbase).
    rewrite Z2Nat.id by lia.
    set (p := (1 + r / 100 / 12) ^ (- (y * 12))) in *.
    set (i := r / 100 / 12) in *.
    field. split; assumption.
Qed.

(** The forward solve with its bonus part written as a multiple of the
    bonus. *)
Lemma forward_solve_linear (m b r : Q) (y : Z) :
  0 <= r -> 0 <= b ->
  exists loan,
    MyApp.loan_capacity_by_payments m b r y = Ok loan /\
    loan == m * payments_value 1 (r / 100 / 12) 1 (Z.to_nat (y * 12))
            + b * payments_value 1 (r / 100 / 12) 6 (Z.to_nat (y * 12 / 6)).
Proof.
  intros Hr Hb. pose proof (monthly_rate_nonneg r Hr) as Hi.
  pose proof (positive_rate_base_nonzero _ Hi) as Hbase.
  destruct (forward_solve_value m b r y Hr) as (a & pvb & Epvb & El & Ha).
  destruct (pv_bonuses_sum b _ (y * 12) Hb Hbase) as (pvb' & Epvb' & Hpvb).
  rewrite Epvb in Epvb'. injection Epvb' as <-.
  eexists. split; [exact El |].
  now rewrite Ha, Hpvb, (payments_value_linear b).
Qed.

(** X4: with a rate that is not negative, whenever
    [loan_capacity_by_payments] returns for two sets of payments, the
    capacity for the larger monthly payment and the larger (non-negative)
    bonus is not the smaller one. *)
Theorem loan_capacity_monotone (m1 m2 b1 b2 r : Q) (y : Z) (loan1 loan2 : Q) :
  0 <= r -> m1 <= m2 -> 0 <= b1 -> b1 <= b2 ->
  MyApp.loan_capacity_by_payments m1 b1 r y = Ok loan1 ->
  MyApp.loan_capacity_by_payments m2 b2 r y = Ok loan2 ->
  loan1 <= loan2.
Proof.
  intros Hr Hm Hb1 Hb E1' E2'. pose proof (monthly_rate_nonneg r Hr) as Hi.
  assert (Hb2 : 0 <= b2) by (apply Qle_trans with b1; assumption).
  destruct (forward_solve_linear m1 b1 r y Hr Hb1) as (l1 & E1 & H1).
  destruct (forward_solve_linear m2 b2 r y Hr Hb2) as (l2 & E2 & H2).
  rewrite E1 in E1'. injection E1' as <-.
  rewrite E2 in E2'. injection E2' as <-.
  destruct (payments_value_unit_bounds _ 1 (Z.to_nat (y * 12)) Hi ltac:(lia))
    as [HA0 _].
  destruct (payments_value_unit_bounds _ 6 (Z.to_nat (y * 12 / 6)) Hi
              ltac:(lia)) as [HB0 _].
  rewrite H1, H2.
  set (A := payments_value 1 (r / 100 / 12) 1 (Z.to_nat (y * 12))) in *.
  set (B := payments_value 1 (r / 100 / 12) 6 (Z.to_nat (y * 12 / 6))) in *.
  nra.
Qed.

Lemma loan_capacity_monotone_witness :
  exists loan1 loan2,
    MyApp.loan_capacity_by_payments 10 0 0 1 = Ok loan1 /\
    MyApp.loan_capacity_by_payments 11 5 0 1 = Ok loan2 /\
    loan1 <= loan2.
Proof.
  eexists. eexists. split; [reflexivity |]. split; [reflexivity |].
  apply (loan_capacity_monotone 10 11 0 5 0 1); try qcmp; reflexivity.
Defined.

(** X6: what the reverse solve does when the bonuses cover the loan.  At a
    rate that is not negative, whenever [pv_bonuses] returns the value of
    the bonuses and [monthly_payment_from_total_loan] returns a payment,
    that payment is not negative; and if the loan is no more than the value
    of the bonuses the payment is 0, with no error and no warning, and the
    capacity [loan_capacity_by_payments] then gives for it is the value of
    the bonuses, not the loan asked for. *)
Theorem reverse_solve_clamps_at_zero (loan b r : Q) (y : Z) (pvb v : Q) :
  0 <= r ->
  MyApp.pv_bonuses b (r / 100 / 12) (y * 12) 6 = Ok pvb ->
  MyApp.monthly_payment_from_total_loan loan b r y = Ok v ->
  0 <= v /\
  (loan <= pvb ->
   v == 0 /\
   forall loan', MyApp.loan_capacity_by_payments v b r y = Ok loan' ->
                 loan' == pvb).
Proof.
  intros Hr Epvb Ev. pose proof (monthly_rate_nonneg r Hr) as Hi.
  assert (Hfwd : v == 0 ->
            forall loan', MyApp.loan_capacity_by_payments v b r y = Ok loan' ->
                          loan' == pvb).
  { intros Hv0 loan' El.
    destruct (forward_solve_value v b r y Hr) as (a & pvb' & Epvb' & El' & Ha).
    rewrite Epvb in Epvb'. injection Epvb' as <-.
    rewrite El' in El. injection El as <-. rewrite Ha, Hv0. ring. }
  destruct (Z.leb_spec (y * 12) 0) as [Hn | Hn].
  - unfold MyApp.monthly_payment_from_total_loan in Ev. cbv zeta in Ev.
    apply Z.leb_le in Hn. rewrite Hn in Ev. injection Ev as <-.
    split; [qcmp |]. intros _. split; [reflexivity |].
    apply Hfwd. reflexivity.
  - destruct (reverse_solve_value loan b r y Hr ltac:(lia))
      as (pvb' & v' & Epvb' & Ev' & Hv).
    rewrite Epvb in Epvb'. injection Epvb' as <-.
    rewrite Ev in Ev'. injection Ev' as <-.
    pose proof (annuity_factor_positive _ (Z.to_nat (y * 12)) Hi ltac:(lia))
      as HA.
    pose proof (max_lower_bound (loan - pvb) 0) as Hmax.
    set (A := payments_value 1 (r / 100 / 12) 1 (Z.to_nat (y * 12))) in *.
    assert (HA0 : ~ A == 0)
      by (intros E; rewrite E in HA; now apply Qlt_irrefl in HA).
    split.
    + rewrite <- Hv in Hmax.
      destruct (Qlt_le_dec v 0) as [Hneg | Hpos]; [| exact Hpos].
      exfalso. nra.
    + intros Hle.
      assert (Hv0 : v == 0).
      { apply (Qmult_inj_r v 0 A HA0). rewrite Hv, Qmult_0_l.
        assert (Hd : loan - pvb <= 0)
          by (unfold Qminus; rewrite <- (Qplus_opp_r pvb);
              now apply Qplus_le_l).
        apply Qle_lt_or_eq in Hd. destruct Hd as [Hd | Hd].
        - now rewrite (max_take _ _ Hd).
        - rewrite (max_keep (loan - pvb) 0); [exact Hd |].
          rewrite Hd. apply Qle_refl. }
      split; [exact Hv0 | now apply Hfwd].
Qed.

Lemma reverse_solve_clamps_at_zero_witness :
  exists pvb v,
    MyApp.pv_bonuses 100 (0 / 100 / 12) (1 * 12) 6 = Ok pvb /\
    MyApp.monthly_payment_from_total_loan 150 100 0 1 = Ok v /\
    pvb == 200 /\ v == 0 /\
    forall loan', MyApp.loan_capacity_by_payments v 100 0 1 = Ok loan' ->
                  loan' == pvb.
Proof.
  eexists. eexists. split; [reflexivity |]. split; [reflexivity |].
  split; [reflexivity |].
  apply (reverse_solve_clamps_at_zero 150 100 0 1);
    [qcmp | reflexivity | reflexivity | qcmp].
Defined.

(** ** The price and its fee *)

(** X8: [solve_purchase_price] always returns.  For funds and a fee rate
    that are not negative the price does not exceed the funds; for funds
    that are not positive the price is 0; and for any fee rate the price
    does not decrease when the funds grow. *)
Theorem purchase_price_within_funds (d d' fee_rate : Q) :
  exists p p',
    MyApp.solve_purchase_price d fee_rate = Ok p /\
    MyApp.solve_purchase_price d' fee_rate = Ok p' /\
    (0 <= d -> 0 <= fee_rate -> p <= d) /\
    (d <= 0 -> p == 0) /\
    (d <= d' -> p <= p').
Proof.
  rewrite !solve_purchase_price_eq. eexists. eexists.
  split; [reflexivity |]. split; [reflexivity |].
  pose proof (fee_divisor_positive fee_rate) as Hdiv.
  set (k := 1 + max fee_rate 0) in *.
  assert (Hinv : 0 < / k) by now apply Qinv_lt_0_compat.
  split; [| split].
  - intros Hd Hfee.
    assert (Hq : 0 <= d / k).
    { apply Qle_shift_div_l; [exact Hdiv |]. now rewrite Qmult_0_l. }
    rewrite (max_keep _ _ Hq). subst k. rewrite (max_keep _ _ Hfee) in *.
    apply Qle_shift_div_r; [exact Hdiv |]. nra.
  - intros Hd.
    assert (Hq : d / k <= 0).
    { apply Qle_shift_div_r; [exact Hdiv |]. now rewrite Qmult_0_l. }
    apply Qle_lt_or_eq in Hq. destruct Hq as [Hq | Hq].
    + now rewrite (max_take _ _ Hq).
    + rewrite (max_keep (d / k) 0); [exact Hq |]. rewrite Hq. apply Qle_refl.
  - intros Hdd.
    assert (Hq : d / k <= d' / k).
    { unfold Qdiv. apply Qmult_le_compat_r; [exact Hdd |].
      now apply Qlt_le_weak. }
    pose proof (max_lower_bound (d' / k) 0) as H0.
    destruct (Qlt_le_dec (d / k) 0) as [Hneg | Hpos].
    + now rewrite (max_take _ _ Hneg).
    + rewrite (max_keep _ _ Hpos). rewrite (max_keep (d' / k) 0); [exact Hq |].
      now apply Qle_trans with (d / k).
Qed.

Lemma purchase_price_within_funds_witness :
  exists p, MyApp.solve_purchase_price 3323 (8 # 100) = Ok p /\ p <= 3323.
Proof.
  destruct (purchase_price_within_funds 3323 3323 (8 # 100))
    as (p & _ & E & _ & H & _).
  exists p. split; [exact E |]. apply H; qcmp.
Defined.

(** ** Which requests are answered, and how *)

Lemma bind_ok {A B : Type} (a : A) (k : A -> result B) : bind (Ok a) k = k a.
Proof. reflexivity. Qed.

Lemma bind_raise {A B : Type} (e : exn) (k : A -> result B) :
  bind (Raise e) k = Raise e.
Proof. reflexivity. Qed.

(** In exact arithmetic [POST /calc] of [app/main.py] has an answer for
    every request, and which one is decided by the checks alone. *)
Lemma app_post_calc_exact_answer (cfg : Config) (req : App.CalcReq) :
  exists resp,
    App.post_calc cfg req = Ok resp /\
    let years_ok := (1 <= App.years req <= 50)%Z in
    let inputs_ok :=
      0 <= App.self_man req /\ 0 < App.monthly_man req /\
      0 <= App.rate_percent req /\ (0 < App.area_need_m2 req)%Z in
    let cost_missing :=
      App.reno_mode req = manual /\ App.reno_cost_input_man req = None in
    match resp with
    | Http422 msg => ~ years_ok /\ msg = years_msg
    | Http400 detail =>
        years_ok /\
        ((~ inputs_ok /\ detail = App.check_inputs_msg) \/
         (inputs_ok /\ cost_missing /\ detail = App.reno_required_msg))
    | Http200 body => years_ok /\ inputs_ok /\ ~ cost_missing /\
                      App.ok body = true
    end.
Proof.
  unfold App.post_calc, App._years_ok.
  destruct ((App.years req <=? 0) || (50 <? App.years req))%Z eqn:Ey.
  { eexists. split; [reflexivity |]. cbv zeta. split; [lia | reflexivity]. }
  assert (Hy : (1 <= App.years req <= 50)%Z) by lia.
  unfold App.calc, App.calc_locals.
  destruct (Qlt_bool (App.self_man req) 0) eqn:E1.
  { eexists. split; [reflexivity |]. cbv zeta. split; [exact Hy |]. left.
    split; [| reflexivity]. apply Qlt_bool_iff in E1. intros (H & _).
    now apply Qle_not_lt in H. }
  destruct (Qle_bool (App.monthly_man req) 0) eqn:E2.
  { eexists. split; [reflexivity |]. cbv zeta. split; [exact Hy |]. left.
    split; [| reflexivity]. apply Qle_bool_iff in E2. intros (_ & H & _).
    now apply Qle_not_lt in E2. }
  destruct (Qlt_bool (App.rate_percent req) 0) eqn:E3.
  { eexists. split; [reflexivity |]. cbv zeta. split; [exact Hy |]. left.
    split; [| reflexivity]. apply Qlt_bool_iff in E3. intros (_ & _ & H & _).
    now apply Qle_not_lt in H. }
  destruct (App.area_need_m2 req <=? 0)%Z eqn:E4.
  { eexists. split; [reflexivity |]. cbv zeta. split; [exact Hy |]. left.
    split; [| reflexivity]. intros (_ & _ & _ & H). lia. }
  simpl orb. cbv iota.
  apply Qlt_bool_false_iff in E1, E3. apply Qle_bool_false_iff in E2.
  apply Z.leb_gt in E4.
  destruct (forward_solve_value (App.monthly_man req) (App.bonus_man req)
              (App.rate_percent req) (App.years req) E3)
    as (a & pvb & _ & El & _).
  change (App.loan_capacity_by_payments (App.monthly_man req)
            (App.bonus_man req) (App.rate_percent req) (App.years req))
    with (MyApp.loan_capacity_by_payments (App.monthly_man req)
            (App.bonus_man req) (App.rate_percent req) (App.years req)).
  rewrite El. unfold bind at 2.
  destruct (App.reno_mode req) eqn:Emode.
  - unfold App.solve_purchase_price. rewrite solve_purchase_price_eq.
    eexists. split; [reflexivity |]. cbv zeta.
    repeat split; try assumption; try lia.
    intros [H _]. discriminate.
  - destruct (App.reno_cost_input_man req) as [cost |] eqn:Ecost.
    + unfold App.solve_purchase_price. rewrite solve_purchase_price_eq.
      eexists. split; [reflexivity |]. cbv zeta.
      repeat split; try assumption; try lia.
      intros [_ H]. discriminate.
    + eexists. split; [reflexivity |]. cbv zeta. split; [exact Hy |]. right.
      repeat split; try assumption; reflexivity.
Qed.

(** X9: how [POST /calc] of [app/main.py] answers.  A loan term outside
    1..50 is answered 422, and with a valid term a request whose self funds
    or rate are negative or whose monthly payment or area are not positive
    is answered 400 with the check-your-input message, both before any
    computation.  Every answer the route gives is one of: 422 (exactly for
    a bad term), 400 with the check-your-input message (exactly for such
    amounts), 400 with the renovation-cost message (valid amounts, manual
    mode, no cost given), or 200 with [ok] true (none of these). *)
Theorem app_post_calc_answers (cfg : Config) (req : App.CalcReq) :
  let years_ok := (1 <= App.years req <= 50)%Z in
  let inputs_ok :=
    0 <= App.self_man req /\ 0 < App.monthly_man req /\
    0 <= App.rate_percent req /\ (0 < App.area_need_m2 req)%Z in
  let cost_missing :=
    App.reno_mode req = manual /\ App.reno_cost_input_man req = None in
  (~ years_ok -> App.post_calc cfg req = Ok (Http422 years_msg)) /\
  (years_ok -> ~ inputs_ok ->
   App.post_calc cfg req = Ok (Http400 App.check_inputs_msg)) /\
  (forall resp, App.post_calc cfg req = Ok resp ->
     match resp with
     | Http422 msg => ~ years_ok /\ msg = years_msg
     | Http400 detail =>
         years_ok /\
         ((~ inputs_ok /\ detail = App.check_inputs_msg) \/
          (inputs_ok /\ cost_missing /\ detail = App.reno_required_msg))
     | Http200 body => years_ok /\ inputs_ok /\ ~ cost_missing /\
                       App.ok body = true
     end).
Proof.
  cbv zeta. split; [| split].
  - intros Hy. unfold App.post_calc, App._years_ok.
    assert (E : ((App.years req <=? 0) || (50 <? App.years req))%Z = true)
      by lia.
    now rewrite E.
  - intros Hy Hbad. unfold App.post_calc, App._years_ok.
    assert (E : ((App.years req <=? 0) || (50 <? App.years req))%Z = false)
      by lia.
    rewrite E. unfold App.calc, App.calc_locals.
    destruct (Qlt_bool (App.self_man req) 0) eqn:E1; [reflexivity |].
    destruct (Qle_bool (App.monthly_man req) 0) eqn:E2; [reflexivity |].
    destruct (Qlt_bool (App.rate_percent req) 0) eqn:E3; [reflexivity |].
    destruct (App.area_need_m2 req <=? 0)%Z eqn:E4; [reflexivity |].
    exfalso. apply Hbad.
    apply Qlt_bool_false_iff in E1, E3. apply Qle_bool_false_iff in E2.
    apply Z.leb_gt in E4. repeat split; assumption.
  - intros resp E.
    destruct (app_post_calc_exact_answer cfg req) as (resp' & E' & H).
    rewrite E in E'. injection E' as <-. exact H.
Qed.

(** X11: how [POST /calc] of [myapp/main.py] answers.  A loan term outside
    1..50 is answered 422 before any computation.  Every answer the route
    gives is either that 422 (exactly for a bad term) or 200 with [ok]
    true: it never answers 400, whatever the amounts, the rate, the area or
    a missing manual cost. *)
Theorem myapp_post_calc_answers (cfg : Config) (req : MyApp.CalcReq) :
  (~ (1 <= MyApp.years req <= 50)%Z ->
   MyApp.post_calc cfg req = Ok (Http422 years_msg)) /\
  (forall resp, MyApp.post_calc cfg req = Ok resp ->
     match resp with
     | Http422 msg => ~ (1 <= MyApp.years req <= 50)%Z /\ msg = years_msg
     | Http400 _ => False
     | Http200 body => (1 <= MyApp.years req <= 50)%Z /\ MyApp.ok body = true
     end).
Proof.
  unfold MyApp.post_calc, MyApp.check_years.
  destruct ((MyApp.years req <=? 0) || (50 <? MyApp.years req))%Z eqn:Ey.
  - split; [reflexivity |]. intros resp [= <-]. split; [lia | reflexivity].
  - split; [intros Hy; exfalso; apply Hy; lia |].
    intros resp. unfold MyApp.calc.
    destruct (MyApp.calc_locals cfg req) as [l | e]; [| discriminate].
    simpl. intros [= <-]. split; [lia | reflexivity].
Qed.

Lemma myapp_post_calc_answers_witness :
  exists body,
    MyApp.post_calc default_config Scenario.myapp_zero_area
    = Ok (Http200 body) /\ MyApp.ok body = true.
Proof.
  destruct (MyApp.post_calc default_config Scenario.myapp_zero_area)
    as [[body | d | msg] |] eqn:E; try discriminate.
  exists body. split; [reflexivity |].
  destruct (myapp_post_calc_answers default_config Scenario.myapp_zero_area)
    as [_ H].
  exact (proj2 (H _ E)).
Defined.

(** X10: [myapp/main.py] does not check the rate, and at a rate of -1200
    percent the monthly rate is -1 and the base [1 + i] is 0: for every
    request with a loan term in 1..50, whichever solve runs raises
    ZeroDivisionError and [POST /calc] has no answer. *)
Theorem myapp_post_calc_raises_at_minus_1200 (cfg : Config)
    (req : MyApp.CalcReq) :
  MyApp.rate_percent req == - (1200) ->
  (1 <= MyApp.years req <= 50)%Z ->
  MyApp.post_calc cfg req = Raise ZeroDivisionError.
Proof.
  intros Hrate Hy.
  assert (Hi : MyApp.rate_percent req / 100 / 12 == - (1))
    by (rewrite Hrate; reflexivity).
  assert (Hbase : Qeq_bool (1 + MyApp.rate_percent req / 100 / 12) 0 = true)
    by (apply Qeq_bool_iff; rewrite Hi; reflexivity).
  assert (Hi0 : Qeq_bool (MyApp.rate_percent req / 100 / 12) 0 = false)
    by (apply Qeq_bool_false_iff; rewrite Hi; qcmp).
  assert (Hn : (MyApp.years req * 12 <=? 0)%Z = false)
    by (apply Z.leb_gt; lia).
  assert (Hneg : (- (MyApp.years req * 12) <? 0)%Z = true)
    by (apply Z.ltb_lt; lia).
  assert (Hpow : pow (1 + MyApp.rate_percent req / 100 / 12)
                   (- (MyApp.years req * 12)) = Raise ZeroDivisionError).
  { unfold pow. now rewrite Hbase, Hneg. }
  assert (Hfwd : forall m b,
    MyApp.loan_capacity_by_payments m b (MyApp.rate_percent req)
      (MyApp.years req) = Raise ZeroDivisionError).
  { intros m b. unfold MyApp.loan_capacity_by_payments, MyApp.pv_annuity.
    cbv zeta. now rewrite Hn, Hi0, Hpow. }
  assert (Hrev : forall l b,
    MyApp.monthly_payment_from_total_loan l b (MyApp.rate_percent req)
      (MyApp.years req) = Raise ZeroDivisionError).
  { intros l b.
    assert (Hb : MyApp.pv_bonuses b (MyApp.rate_percent req / 100 / 12)
                   (MyApp.years req * 12) 6 = Ok 0
                 \/ MyApp.pv_bonuses b (MyApp.rate_percent req / 100 / 12)
                      (MyApp.years req * 12) 6 = Raise ZeroDivisionError).
    { unfold MyApp.pv_bonuses. rewrite Hn, Hi0.
      destruct (Qle_bool b 0); [now left | right].
      simpl orb. cbv iota. rewrite pv_bonuses_loop_unfold.
      assert (E6 : (6 <=? MyApp.years req * 12)%Z = true)
        by (apply Z.leb_le; lia).
      rewrite E6.
      destruct (Z.to_nat (MyApp.years req * 12)) eqn:Ef; [lia |].
      assert (Ep : pow (1 + MyApp.rate_percent req / 100 / 12) 6
                   = Ok ((1 + MyApp.rate_percent req / 100 / 12) ^ 6)).
      { unfold pow. now rewrite Hbase. }
      rewrite Ep. rewrite bind_ok.
      assert (Et : forall x,
                truediv x ((1 + MyApp.rate_percent req / 100 / 12) ^ 6)
                = Raise ZeroDivisionError).
      { intros x. unfold truediv.
        assert (E0 : Qeq_bool ((1 + MyApp.rate_percent req / 100 / 12) ^ 6) 0
                     = true).
        { apply Qeq_bool_iff. apply Qeq_bool_iff in Hbase. rewrite Hbase.
          reflexivity. }
        now rewrite E0. }
      now rewrite Et. }
    unfold MyApp.monthly_payment_from_total_loan. cbv zeta. rewrite Hn.
    destruct Hb as [-> | ->]; [| reflexivity].
    rewrite bind_ok, Hi0, Hpow. reflexivity. }
  unfold MyApp.post_calc, MyApp.check_years.
  assert (Ey : ((MyApp.years req <=? 0) || (50 <? MyApp.years req))%Z = false)
    by lia.
  rewrite Ey. unfold MyApp.calc.
  destruct (myapp_calc_locals_shape cfg req) as [msgs ->]. cbv zeta.
  destruct (Qlt_bool 0 _ && Qle_bool _ 0); [rewrite Hrev | rewrite Hfwd];
    reflexivity.
Qed.

Lemma myapp_post_calc_raises_at_minus_1200_witness :
  MyApp.post_calc default_config
    {| MyApp.self_man := 300; MyApp.monthly_man := Some 10;
       MyApp.total_loan_input_man := None; MyApp.rate_percent := - (1200);
       MyApp.area_need_m2 := 60; MyApp.years := 35; MyApp.reno_mode := full;
       MyApp.reno_cost_input_man := None; MyApp.bonus_man := 10;
       MyApp.memo_text := None |}
  = Raise ZeroDivisionError.
Proof.
  apply myapp_post_calc_raises_at_minus_1200; simpl; [reflexivity | lia].
Defined.

(** ** Unit-correction warnings *)

(** The warnings [calc] has collected when it returns, in the order of its
    [append] calls. *)
Lemma myapp_calc_warning_msgs (cfg : Config) (req : MyApp.CalcReq)
    (l : MyApp.CalcLocals) :
  MyApp.calc_locals cfg req = Ok l ->
  MyApp.l_warning_msgs l
  = (if snd (MyApp.normalize_man_input (Some (MyApp.self_man req)))
     then [MyApp.warn_self] else [])
    ++ (if snd (MyApp.normalize_man_input (MyApp.monthly_man req))
        then [MyApp.warn_monthly] else [])
    ++ (if snd (MyApp.normalize_man_input (MyApp.total_loan_input_man req))
        then [MyApp.warn_total] else [])
    ++ (if snd (MyApp.normalize_man_input (Some (MyApp.bonus_man req)))
        then [MyApp.warn_bonus] else [])
    ++ match MyApp.reno_mode req with
       | full => []
       | manual =>
           if snd (MyApp.normalize_man_input
                     (Some (or_else (MyApp.reno_cost_input_man req) 0)))
           then [MyApp.warn_reno] else []
       end.
Proof.
  unfold MyApp.calc_locals.
  destruct (MyApp.normalize_man_input (Some (MyApp.self_man req)))
    as [s w1].
  destruct (MyApp.normalize_man_input (Some (MyApp.bonus_man req)))
    as [b w4].
  assert (Em : exists mi w2,
    match MyApp.monthly_man req with
    | Some v => MyApp.normalize_man_input (Some v)
    | None => (0, false)
    end = (mi, w2)
    /\ w2 = snd (MyApp.normalize_man_input (MyApp.monthly_man req))).
  { destruct (MyApp.monthly_man req); eexists; eexists; split;
      try apply surjective_pairing; reflexivity. }
  destruct Em as (mi & w2 & -> & <-).
  assert (Et : exists ti w3,
    match MyApp.total_loan_input_man req with
    | Some v => MyApp.normalize_man_input (Some v)
    | None => (0, false)
    end = (ti, w3)
    /\ w3 = snd (MyApp.normalize_man_input (MyApp.total_loan_input_man req))).
  { destruct (MyApp.total_loan_input_man req); eexists; eexists; split;
      try apply surjective_pairing; reflexivity. }
  destruct Et as (ti & w3 & -> & <-).
  destruct (MyApp.reno_mode req).
  - destruct (if Qlt_bool 0 ti && Qle_bool mi 0 then _ else _)
      as [[mo tl] | e]; [| discriminate].
    simpl. rewrite solve_purchase_price_eq. simpl. intros [= <-]. simpl.
    destruct w1, w2, w3, w4; reflexivity.
  - destruct (MyApp.normalize_man_input (Some (or_else _ _))) as [r w5].
    destruct (if Qlt_bool 0 ti && Qle_bool mi 0 then _ else _)
      as [[mo tl] | e]; [| discriminate].
    simpl. rewrite solve_purchase_price_eq. simpl. intros [= <-]. simpl.
    destruct w1, w2, w3, w4, w5; reflexivity.
Qed.

Lemma normalize_flag (x : Q) :
  snd (MyApp.normalize_man_input (Some x)) = Qle_bool 100000 x.
Proof.
  simpl. now destruct (Qle_bool 100000 x).
Qed.

(** X12: in every answer of [calc] in [myapp/main.py] the warning text is
    the warnings of the rescaled amounts joined by newlines, in this order:
    self funds, monthly payment, total loan, bonus and, in manual mode,
    renovation cost, an amount being rescaled when it is given and at or
    above 100,000.  The text is absent exactly when none is rescaled. *)
Theorem calc_warning_text_spec (cfg : Config) (req : MyApp.CalcReq)
    (body : MyApp.CalcRes) :
  MyApp.calc cfg req = Ok (Http200 body) ->
  let rescaled (x : option Q) :=
    match x with
    | Some v => Qle_bool 100000 v
    | None => false
    end in
  let msgs :=
    (if rescaled (Some (MyApp.self_man req)) then [MyApp.warn_self] else [])
    ++ (if rescaled (MyApp.monthly_man req) then [MyApp.warn_monthly] else [])
    ++ (if rescaled (MyApp.total_loan_input_man req)
        then [MyApp.warn_total] else [])
    ++ (if rescaled (Some (MyApp.bonus_man req)) then [MyApp.warn_bonus] else [])
    ++ match MyApp.reno_mode req with
       | full => []
       | manual =>
           if rescaled (MyApp.reno_cost_input_man req)
           then [MyApp.warn_reno] else []
       end in
  MyApp.warning_text body
  = match msgs with
    | [] => None
    | _ :: _ => Some (String.concat MyApp.newline msgs)
    end /\
  (MyApp.warning_text body = None <->
   MyApp.self_man req < 100000 /\
   (forall v, MyApp.monthly_man req = Some v -> v < 100000) /\
   (forall v, MyApp.total_loan_input_man req = Some v -> v < 100000) /\
   MyApp.bonus_man req < 100000 /\
   (forall v, MyApp.reno_mode req = manual ->
              MyApp.reno_cost_input_man req = Some v -> v < 100000)).
Proof.
  unfold MyApp.calc.
  destruct (MyApp.calc_locals cfg req) as [l | e] eqn:El; [| discriminate].
  simpl bind. intros [= <-]. cbv zeta. simpl MyApp.warning_text.
  rewrite (myapp_calc_warning_msgs _ _ _ El).
  rewrite !normalize_flag.
  assert (Ho : forall o : option Q,
            snd (MyApp.normalize_man_input o)
            = match o with
              | Some v => Qle_bool 100000 v
              | None => false
              end).
  { intros [v |]; [apply normalize_flag | reflexivity]. }
  rewrite !Ho.
  assert (Hc : Qle_bool 100000 (or_else (MyApp.reno_cost_input_man req) 0)
               = match MyApp.reno_cost_input_man req with
                 | Some v => Qle_bool 100000 v
                 | None => false
                 end).
  { destruct (MyApp.reno_cost_input_man req) as [v |]; [| reflexivity].
    simpl. destruct (Qeq_bool v 0) eqn:E0; [| reflexivity].
    apply Qeq_bool_iff in E0.
    rewrite (Qleb_comp _ _ (Qeq_refl 100000) _ _ E0). reflexivity. }
  rewrite Hc. split.
  { match goal with
    | |- _ = match ?L with [] => _ | _ :: _ => _ end =>
        destruct L; reflexivity
    end. }
  assert (Hlt : forall x, Qle_bool 100000 x = false <-> x < 100000)
    by (intros x; apply Qle_bool_false_iff).
  assert (Hopt : forall o : option Q,
            match o with
            | Some v => Qle_bool 100000 v
            | None => false
            end = false <-> forall v, o = Some v -> v < 100000).
  { intros [v |].
    - rewrite Hlt. split; [now intros H v' [= <-] | auto].
    - split; [discriminate | reflexivity]. }
  assert (Hr : match MyApp.reno_mode req with
               | full => false
               | manual =>
                   match MyApp.reno_cost_input_man req with
                   | Some v => Qle_bool 100000 v
                   | None => false
                   end
               end = false
               <-> forall v, MyApp.reno_mode req = manual ->
                     MyApp.reno_cost_input_man req = Some v -> v < 100000).
  { destruct (MyApp.reno_mode req); [split; [discriminate | reflexivity] |].
    rewrite Hopt. split; [intros H v _; apply H | intros H v; now apply H]. }
  rewrite <- (Hlt (MyApp.self_man req)), <- (Hlt (MyApp.bonus_man req)),
    <- (Hopt (MyApp.monthly_man req)),
    <- (Hopt (MyApp.total_loan_input_man req)), <- Hr.
  destruct (Qle_bool 100000 (MyApp.self_man req));
  destruct (match MyApp.monthly_man req with
            | Some v => Qle_bool 100000 v
            | None => false
            end);
  destruct (match MyApp.total_loan_input_man req with
            | Some v => Qle_bool 100000 v
            | None => false
            end);
  destruct (Qle_bool 100000 (MyApp.bonus_man req));
  destruct (MyApp.reno_mode req);
  try destruct (match MyApp.reno_cost_input_man req with
                | Some v => Qle_bool 100000 v
                | None => false
                end);
  simpl; split; try discriminate; try tauto;
  intros (? & ? & ? & ? & ?); discriminate.
Qed.

Lemma calc_warning_text_spec_witness :
  exists body,
    MyApp.calc default_config
      {| MyApp.self_man := 5000000; MyApp.monthly_man := Some 10;
         MyApp.total_loan_input_man := None; MyApp.rate_percent := 0;
         MyApp.area_need_m2 := 60; MyApp.years := 35;
         MyApp.reno_mode := manual;
         MyApp.reno_cost_input_man := Some 8000000;
         MyApp.bonus_man := 0; MyApp.memo_text := None |}
    = Ok (Http200 body) /\
    MyApp.warning_text body
    = Some (String.concat MyApp.newline [MyApp.warn_self; MyApp.warn_reno]).
Proof.
  match goal with
  | |- exists body, MyApp.calc ?c ?r = _ /\ _ =>
      destruct (MyApp.calc c r) as [[body | |] |] eqn:E; try discriminate;
      exists body; split; [reflexivity |];
      exact (proj1 (calc_warning_text_spec c r body E))
  end.
Defined.

(** ** What the answers report *)

Lemma round_half_even_compat (x y : Q) :
  x == y -> round_half_even x = round_half_even y.
Proof.
  intros E. unfold round_half_even, Qlt_bool. cbv zeta.
  rewrite (Qfloor_comp _ _ E).
  assert (E' : x - inject_Z (Qfloor y) == y - inject_Z (Qfloor y))
    by now rewrite E.
  now rewrite (Qleb_comp _ _ (Qeq_refl (1 # 2)) _ _ E'),
              (Qleb_comp _ _ E' _ _ (Qeq_refl (1 # 2))).
Qed.

Lemma round_compat (x y : Q) (ndigits : nat) :
  x == y -> round x ndigits == round y ndigits.
Proof.
  intros E. unfold round. cbv zeta.
  rewrite (round_half_even_compat (x * inject_Z (10 ^ Z.of_nat ndigits))
             (y * inject_Z (10 ^ Z.of_nat ndigits))) by now rewrite E.
  reflexivity.
Qed.

Lemma round_half_even_nonneg (x : Q) : 0 <= x -> (0 <= round_half_even x)%Z.
Proof.
  intros H. pose proof (Qfloor_resp_le 0 x H) as Hf.
  change (Qfloor 0) with 0%Z in Hf.
  unfold round_half_even. cbv zeta.
  destruct (Qlt_bool _ _); [exact Hf |].
  destruct (Qlt_bool _ _); [lia |].
  destruct (Z.even _); lia.
Qed.

Lemma round_nonneg (x : Q) (ndigits : nat) : 0 <= x -> 0 <= round x ndigits.
Proof.
  intros H. unfold round. cbv zeta.
  assert (Hs : 0 < inject_Z (10 ^ Z.of_nat ndigits)).
  { change 0 with (inject_Z 0). rewrite <- Zlt_Qlt.
    apply Z.pow_pos_nonneg; lia. }
  apply Qle_shift_div_l; [exact Hs |]. rewrite Qmult_0_l.
  change 0 with (inject_Z 0). rewrite <- Zle_Qle.
  apply round_half_even_nonneg. apply Qmult_le_0_compat; [exact H |].
  now apply Qlt_le_weak.
Qed.

(** X13: whatever the request and the configured rates, a 200 answer of
    either application never reports a negative purchasable price, and with
    a fee rate that is not negative it never reports a negative fee. *)
Theorem reported_price_and_fee_nonneg (cfg : Config) :
  (forall req body,
     MyApp.calc cfg req = Ok (Http200 body) ->
     0 <= MyApp.purchasable_price_man body /\
     (0 <= FEE_RATE cfg -> 0 <= MyApp.fee_man body)) /\
  (forall req body,
     App.calc cfg req = Ok (Http200 body) ->
     0 <= App.purchasable_price_man body /\
     (0 <= FEE_RATE cfg -> 0 <= App.fee_man body)).
Proof.
  split.
  - intros req body. unfold MyApp.calc.
    destruct (MyApp.calc_locals cfg req) as [l | e] eqn:El; [| discriminate].
    simpl. intros [= <-]. simpl.
    pose proof (myapp_calc_locals_inv _ _ _ El) as (_ & _ & _ & _ & _ & Hp & Hf).
    rewrite solve_purchase_price_eq in Hp. injection Hp as Hp.
    assert (H0 : 0 <= MyApp.l_purch l)
      by (rewrite <- Hp; apply max_lower_bound).
    split; [now apply round_nonneg |].
    intros Hfee. apply round_nonneg. rewrite Hf.
    now apply Qmult_le_0_compat.
  - intros req body. unfold App.calc.
    destruct (App.calc_locals cfg req) as [[d | l] | e] eqn:El;
      try discriminate.
    simpl. intros [= <-]. simpl.
    pose proof (app_calc_locals_inv _ _ _ El) as (_ & _ & _ & _ & _ & Hp & Hf).
    unfold App.solve_purchase_price in Hp.
    rewrite solve_purchase_price_eq in Hp. injection Hp as Hp.
    assert (H0 : 0 <= App.l_purch_price l)
      by (rewrite <- Hp; apply max_lower_bound).
    split; [now apply round_nonneg |].
    intros Hfee. apply round_nonneg. rewrite Hf.
    now apply Qmult_le_0_compat.
Qed.

(** X14: on a request [app/main.py] answers with 200, whose amounts are all
    below 100,000 and whose area is small enough for area * 12 + 350 to be
    computed exactly in a float (at most 2^53), [myapp/main.py] (given the
    same fields, the monthly payment as typed and no total loan) also
    answers 200, runs the forward solve and reports the same total loan,
    renovation cost, tax-inclusive renovation cost and memo, the monthly
    payment as given, and no warning. *)
Theorem myapp_agrees_with_app (cfg : Config) (req : App.CalcReq)
    (body : App.CalcRes) :
  App.self_man req < 100000 -> App.monthly_man req < 100000 ->
  App.bonus_man req < 100000 ->
  (forall v, App.reno_mode req = manual ->
             App.reno_cost_input_man req = Some v -> v < 100000) ->
  (App.area_need_m2 req * 12 + 350 <= 2 ^ 53)%Z ->
  App.post_calc cfg req = Ok (Http200 body) ->
  exists body',
    MyApp.post_calc cfg
      {| MyApp.self_man := App.self_man req;
         MyApp.monthly_man := Some (App.monthly_man req);
         MyApp.total_loan_input_man := None;
         MyApp.rate_percent := App.rate_percent req;
         MyApp.area_need_m2 := App.area_need_m2 req;
         MyApp.years := App.years req;
         MyApp.reno_mode := App.reno_mode req;
         MyApp.reno_cost_input_man := App.reno_cost_input_man req;
         MyApp.bonus_man := App.bonus_man req;
         MyApp.memo_text := App.memo_text req |}
    = Ok (Http200 body') /\
    MyApp.total_loan_man body' = App.total_loan_man body /\
    MyApp.monthly_man_out body' = round (App.monthly_man req) 2 /\
    MyApp.reno_cost_man body' == App.reno_cost_man body /\
    MyApp.reno_cost_tax_incl_man body' == App.reno_cost_tax_incl_man body /\
    MyApp.res_memo_text body' = App.res_memo_text body /\
    MyApp.warning_text body' = None.
Proof.
  intros Hs Hm Hb Hc _ H.
  set (req' := {| MyApp.self_man := App.self_man req |}).
  unfold App.post_calc, App._years_ok in H.
  unfold MyApp.post_calc, MyApp.check_years.
  change (MyApp.years req') with (App.years req).
  destruct ((App.years req <=? 0) || (50 <? App.years req))%Z;
    [discriminate |].
  unfold App.calc in H.
  destruct (App.calc_locals cfg req) as [[d | l] | e] eqn:El;
    try discriminate.
  simpl in H. injection H as <-.
  pose proof (app_calc_locals_inv _ _ _ El)
    as ((_ & Hm0 & _ & _) & Hloan & Hreno & Htax & _).
  assert (El' : exists l',
    MyApp.calc_locals cfg req' = Ok l' /\
    MyApp.l_total_loan l' = App.l_total_loan l /\
    MyApp.l_monthly l' = App.monthly_man req /\
    MyApp.l_reno l' == App.l_reno_cost l).
  { destruct (myapp_calc_locals_shape cfg req') as [msgs ->]. cbv zeta.
    change (MyApp.monthly_man req') with (Some (App.monthly_man req)).
    change (MyApp.total_loan_input_man req') with (@None Q).
    change (MyApp.self_man req') with (App.self_man req).
    change (MyApp.bonus_man req') with (App.bonus_man req).
    change (MyApp.rate_percent req') with (App.rate_percent req).
    change (MyApp.years req') with (App.years req).
    change (MyApp.reno_mode req') with (App.reno_mode req).
    change (MyApp.area_need_m2 req') with (App.area_need_m2 req).
    change (MyApp.reno_cost_input_man req')
      with (App.reno_cost_input_man req).
    rewrite !normalize_small by assumption.
    change (Qlt_bool 0 0) with false. simpl andb. cbv iota. simpl fst.
    change (MyApp.loan_capacity_by_payments (App.monthly_man req)
              (App.bonus_man req) (App.rate_percent req) (App.years req))
      with (App.loan_capacity_by_payments (App.monthly_man req)
              (App.bonus_man req) (App.rate_percent req) (App.years req)).
    rewrite Hloan. rewrite !bind_ok.
    eexists. split; [reflexivity |]. simpl.
    split; [reflexivity |]. split; [reflexivity |].
    destruct (App.reno_mode req).
    - injection Hreno as <-. unfold MyApp.full_renovation_cost,
        App.full_renovation_cost.
      rewrite inject_Z_plus, inject_Z_mult. reflexivity.
    - rewrite Hreno. simpl or_else.
      destruct (Qeq_bool (App.l_reno_cost l) 0) eqn:E0.
      + apply Qeq_bool_iff in E0. simpl. now rewrite E0.
      + change (fst (MyApp.normalize_man_input (Some (App.l_reno_cost l)))
                == App.l_reno_cost l).
        rewrite normalize_small by exact (Hc _ eq_refl Hreno).
        reflexivity. }
  destruct El' as (l' & El' & Htl & Hmo & Hre).
  unfold MyApp.calc. rewrite El'. rewrite bind_ok.
  eexists. split; [reflexivity |]. simpl.
  rewrite Htl, Hmo.
  split; [reflexivity |]. split; [reflexivity |].
  split; [now apply round_compat |].
  split.
  { apply round_compat.
    pose proof (myapp_calc_locals_inv _ _ _ El') as (_ & _ & Htax' & _).
    rewrite Htax', Htax, Hre. reflexivity. }
  split; [reflexivity |].
  rewrite (myapp_calc_warning_msgs _ _ _ El').
  change (MyApp.monthly_man req') with (Some (App.monthly_man req)).
  change (MyApp.total_loan_input_man req') with (@None Q).
  change (MyApp.self_man req') with (App.self_man req).
  change (MyApp.bonus_man req') with (App.bonus_man req).
  change (MyApp.reno_mode req') with (App.reno_mode req).
  change (MyApp.reno_cost_input_man req') with (App.reno_cost_input_man req).
  rewrite !normalize_small by assumption. simpl.
  destruct (App.reno_mode req); [reflexivity |].
  rewrite Hreno. simpl or_else.
  destruct (Qeq_bool (App.l_reno_cost l) 0) eqn:E0; [reflexivity |].
  pose proof (Hc _ eq_refl Hreno) as Hlt.
  apply Qle_bool_false_iff in Hlt. now rewrite Hlt.
Qed.

Lemma myapp_agrees_with_app_witness :
  exists body body',
    App.post_calc default_config Scenario.app_full = Ok (Http200 body) /\
    MyApp.post_calc default_config Scenario.myapp_full = Ok (Http200 body') /\
    MyApp.total_loan_man body' = App.total_loan_man body /\
    MyApp.reno_cost_tax_incl_man body' == App.reno_cost_tax_incl_man body.
Proof.
  destruct (App.post_calc default_config Scenario.app_full)
    as [[body | |] |] eqn:E; try discriminate.
  destruct (myapp_agrees_with_app default_config Scenario.app_full body)
    as (body' & E' & Ht & _ & _ & Hx & _).
  - simpl. qcmp.
  - simpl. qcmp.
  - simpl. qcmp.
  - intros v Hmode. discriminate.
  - simpl. lia.
  - exact E.
  - exists body, body'. split; [reflexivity |]. split; [exact E' |].
    split; [exact Ht | exact Hx].
Defined.

(** ** The reverse solve over binary64 *)

Section FloatReverseSolve.

Variable libm_pow : float -> float -> result float.

(** Every int between -600 and 600 converts to a float. *)
Lemma flt_of_int_small (m : Z) :
  (-600 <= m <= 600)%Z -> exists w, Flt.of_int m = Ok w.
Proof.
  intros Hm.
  assert (Hall : forallb
            (fun k => match Flt.of_int (Z.of_nat k - 600) with
                      | Ok _ => true
                      | Raise _ => false
                      end) (seq 0 1201) = true)
    by (vm_compute; reflexivity).
  rewrite forallb_forall in Hall.
  specialize (Hall (Z.to_nat (m + 600))).
  replace (Z.of_nat (Z.to_nat (m + 600)) - 600)%Z with m in Hall by lia.
  destruct (Flt.of_int m) as [w | e]; [now exists w |].
  assert (Hin : In (Z.to_nat (m + 600)) (seq 0 1201))
    by (apply in_seq; lia).
  specialize (Hall Hin). discriminate.
Qed.

(** 1.0 to any such power is 1.0, by the interpreter's own case analysis. *)
Lemma flt_pow_one (m : Z) :
  (-600 <= m <= 600)%Z -> Flt.pow libm_pow 1%float m = Ok 1%float.
Proof.
  intros Hm. unfold Flt.pow.
  destruct (flt_of_int_small m Hm) as [w ->]. rewrite bind_ok.
  destruct (w =? 0)%float; reflexivity.
Qed.

Lemma flt_pv_bonuses_loop_returns (bonus i : float) (n : Z) :
  (1 + i)%float = 1%float -> (n <= 600)%Z ->
  forall (fuel : nat) (m : Z) (pv : float),
    (0 <= m)%Z -> (n - m < Z.of_nat fuel * 6)%Z ->
    returns (Flt.pv_bonuses_loop libm_pow fuel bonus i n 6 m pv).
Proof.
  intros H1 Hn. induction fuel as [| fuel IH]; intros m pv Hm Hfuel; simpl.
  - destruct (m <=? n)%Z eqn:E; [| now eexists].
    apply Z.leb_le in E. lia.
  - destruct (m <=? n)%Z eqn:E; [| now eexists].
    apply Z.leb_le in E.
    rewrite H1, flt_pow_one by lia. rewrite bind_ok.
    change (Flt.truediv bonus 1%float) with (Ok (bonus / 1)%float).
    rewrite bind_ok. apply IH; lia.
Qed.

(** X15: over binary64, whenever the monthly rate [i] is not 0.0 but is
    absorbed by 1.0 (1 + i evaluates to 1.0), [monthly_payment_from_total_loan]
    raises ZeroDivisionError for every loan amount, every bonus and every
    loan term from 1 to 50 years: the [i == 0] guard is passed, the bonus
    loop ends normally, and the last divisor 1 - (1 + i)^(-n) is 0.0. *)
Theorem float_reverse_solve_raises_when_rate_absorbed
    (total_loan_man bonus_man rate_percent : float) (years : Z) :
  (1 <= years <= 50)%Z ->
  (rate_percent / 100 / 12 =? 0)%float = false ->
  (1 + rate_percent / 100 / 12)%float = 1%float ->
  Flt.monthly_payment_from_total_loan libm_pow total_loan_man bonus_man
    rate_percent years = Raise ZeroDivisionError.
Proof.
  intros Hy Hi H1. unfold Flt.monthly_payment_from_total_loan. cbv zeta.
  assert (Hn : (years * 12 <=? 0)%Z = false) by (apply Z.leb_gt; lia).
  rewrite Hn.
  assert (Hb : returns (Flt.pv_bonuses libm_pow bonus_man
                          (rate_percent / 100 / 12)%float (years * 12) 6)).
  { unfold Flt.pv_bonuses. rewrite Hn, Hi.
    destruct (bonus_man <=? 0)%float; [now eexists |].
    simpl orb. cbv iota.
    apply flt_pv_bonuses_loop_returns; try assumption; lia. }
  destruct Hb as [pvb ->]. rewrite bind_ok, Hi, H1.
  rewrite flt_pow_one by lia. rewrite bind_ok. reflexivity.
Qed.

End FloatReverseSolve.

Lemma float_reverse_solve_raises_when_rate_absorbed_witness :
  Flt.monthly_payment_from_total_loan (fun _ _ => Raise OverflowError)
    1500%float 10%float Scenario.tiny_rate_percent 20
  = Raise ZeroDivisionError.
Proof.
  apply float_reverse_solve_raises_when_rate_absorbed;
    [lia | vm_compute; reflexivity | vm_compute; reflexivity].
Defined.

(** ** Exact figures and monotonicity *)

Lemma round_half_even_Z (k : Z) : round_half_even (inject_Z k) = k.
Proof.
  unfold round_half_even. cbv zeta. rewrite Qfloor_Z.
  assert (E : Qlt_bool (inject_Z k - inject_Z k) (1 # 2) = true).
  { apply Qlt_bool_iff. setoid_replace (inject_Z k - inject_Z k) with 0 by ring.
    qcmp. }
  now rewrite E.
Qed.

(** An amount with at most one decimal is reported as it is. *)
Lemma round_of_tenths (k : Z) (x : Q) :
  x * 10 == inject_Z k -> round x 1 == x.
Proof.
  intros E. unfold round. cbv zeta.
  change (inject_Z (10 ^ Z.of_nat 1)) with 10.
  rewrite (round_half_even_compat _ _ E), round_half_even_Z, <- E. field.
Qed.

(** X16: in full renovation mode every 200 answer reports the renovation
    cost as the whole number area * 12 + 350, unchanged by the rounding to
    one decimal: for [myapp/main.py], which computes it on ints, at every
    area, and for [app/main.py], which computes it on floats, at every area
    for which that number is at most 2^53. *)
Theorem full_mode_reports_exact_cost (cfg : Config) :
  (forall req body,
     MyApp.reno_mode req = full ->
     MyApp.calc cfg req = Ok (Http200 body) ->
     MyApp.reno_cost_man body == inject_Z (MyApp.area_need_m2 req * 12 + 350)) /\
  (forall req body,
     App.reno_mode req = full ->
     (App.area_need_m2 req * 12 + 350 <= 2 ^ 53)%Z ->
     App.calc cfg req = Ok (Http200 body) ->
     App.reno_cost_man body == inject_Z (App.area_need_m2 req * 12 + 350)).
Proof.
  assert (Hcost : forall z : Z, round (inject_Z z) 1 == inject_Z z).
  { intros z. apply (round_of_tenths (z * 10)).
    rewrite inject_Z_mult. reflexivity. }
  split.
  - intros req body Hmode. unfold MyApp.calc.
    destruct (MyApp.calc_locals cfg req) as [l | e] eqn:El; [| discriminate].
    simpl. intros [= <-]. simpl.
    pose proof (myapp_calc_locals_inv _ _ _ El) as (_ & Hreno & _).
    rewrite Hmode in Hreno. rewrite Hreno.
    unfold MyApp.full_renovation_cost. apply Hcost.
  - intros req body Hmode _. unfold App.calc.
    destruct (App.calc_locals cfg req) as [[d | l] | e] eqn:El;
      try discriminate.
    simpl. intros [= <-]. simpl.
    pose proof (app_calc_locals_inv _ _ _ El) as (_ & _ & Hreno & _).
    rewrite Hmode in Hreno. injection Hreno as Hreno.
    assert (E : App.l_reno_cost l
                == inject_Z (App.area_need_m2 req * 12 + 350)).
    { rewrite <- Hreno. unfold App.full_renovation_cost.
      rewrite inject_Z_plus, inject_Z_mult. reflexivity. }
    rewrite (round_compat _ _ 1 E). apply Hcost.
Qed.

Lemma full_mode_reports_exact_cost_witness :
  exists body,
    App.calc default_config Scenario.app_full = Ok (Http200 body) /\
    App.reno_cost_man body == 1070.
Proof.
  destruct (App.calc default_config Scenario.app_full)
    as [[body | |] |] eqn:E; try discriminate.
  destruct (full_mode_reports_exact_cost default_config) as [_ H].
  exists body. split; [reflexivity |].
  rewrite (H Scenario.app_full body eq_refl ltac:(simpl; lia) E).
  reflexivity.
Defined.

(** X7: at a rate that is not negative and a term of at least one year,
    whenever [monthly_payment_from_total_loan] returns for two requests, the
    payment for the larger loan and the smaller (non-negative) bonus is not
    the smaller one. *)
Theorem reverse_solve_monotone (loan1 loan2 b1 b2 r : Q) (y : Z)
    (v1 v2 : Q) :
  0 <= r -> (1 <= y)%Z -> loan1 <= loan2 -> 0 <= b1 -> b1 <= b2 ->
  MyApp.monthly_payment_from_total_loan loan1 b2 r y = Ok v1 ->
  MyApp.monthly_payment_from_total_loan loan2 b1 r y = Ok v2 ->
  v1 <= v2.
Proof.
  intros Hr Hy Hl Hb1 Hb Ev1' Ev2'. pose proof (monthly_rate_nonneg r Hr) as Hi.
  pose proof (positive_rate_base_nonzero _ Hi) as Hbase.
  assert (Hb2 : 0 <= b2) by (apply Qle_trans with b1; assumption).
  destruct (reverse_solve_value loan1 b2 r y Hr Hy)
    as (p2 & v1' & Ep2 & Ev1 & Hv1).
  destruct (reverse_solve_value loan2 b1 r y Hr Hy)
    as (p1 & v2' & Ep1 & Ev2 & Hv2).
  rewrite Ev1 in Ev1'. injection Ev1' as ->.
  rewrite Ev2 in Ev2'. injection Ev2' as ->.
  destruct (pv_bonuses_sum b1 _ (y * 12) Hb1 Hbase) as (p1' & Ep1' & Hp1).
  destruct (pv_bonuses_sum b2 _ (y * 12) Hb2 Hbase) as (p2' & Ep2' & Hp2).
  rewrite Ep1 in Ep1'. injection Ep1' as <-.
  rewrite Ep2 in Ep2'. injection Ep2' as <-.
  rewrite payments_value_linear in Hp1, Hp2.
  destruct (payments_value_unit_bounds _ 6 (Z.to_nat (y * 12 / 6)) Hi
              ltac:(lia)) as [HB0 _].
  pose proof (annuity_factor_positive _ (Z.to_nat (y * 12)) Hi ltac:(lia))
    as HA.
  set (A := payments_value 1 (r / 100 / 12) 1 (Z.to_nat (y * 12))) in *.
  set (B := payments_value 1 (r / 100 / 12) 6 (Z.to_nat (y * 12 / 6))) in *.
  assert (Hd : loan1 - p2 <= loan2 - p1) by (rewrite Hp1, Hp2; nra).
  assert (Hmax : max (loan1 - p2) 0 <= max (loan2 - p1) 0).
  { pose proof (max_lower_bound (loan2 - p1) 0) as H0.
    destruct (Qlt_le_dec (loan1 - p2) 0) as [Hneg | Hpos].
    - now rewrite (max_take _ _ Hneg).
    - rewrite (max_keep _ _ Hpos).
      rewrite (max_keep (loan2 - p1) 0); [exact Hd |].
      now apply Qle_trans with (loan1 - p2). }
  rewrite <- Hv1, <- Hv2 in Hmax.
  destruct (Qlt_le_dec v2 v1) as [Hgt | Hle]; [| exact Hle].
  exfalso. nra.
Qed.

Lemma reverse_solve_monotone_witness :
  exists v1 v2,
    MyApp.monthly_payment_from_total_loan 2000 10 0 30 = Ok v1 /\
    MyApp.monthly_payment_from_total_loan 2500 5 0 30 = Ok v2 /\
    v1 <= v2.
Proof.
  eexists. eexists. split; [reflexivity |]. split; [reflexivity |].
  apply (reverse_solve_monotone 2000 2500 5 10 0 30); try qcmp; reflexivity.
Defined.
